(** * DETorrent: migration engine, image manager, backup manager, OS detector

    A shallow embedding of the Python sources under [core/]:
    [nexus_engine.py], [iso_manager.py], [partition_manager.py],
    [bootloader_manager.py], [backup_manager.py] and [os_detector.py].

    Python objects become records, dictionaries become [gmap]s, and a
    method becomes a function in a state-and-exception monad over the
    whole process state.  Everything the program cannot decide by itself
    (exit status of an external tool, names handed out by [tempfile],
    the clock) is read from the [World] component of the state. *)

From Stdlib Require Import ZArith List Ascii String Lia.
From Stdlib Require Import Strings.Byte Sorting.Sorted.
From stdpp Require Import gmap strings list fin_maps pretty.

Open Scope string_scope.
Open Scope Z_scope.

(** ** Strings, bytes and paths as Python treats them *)

Definition dquote : ascii := "034"%char.

(** [str.lower()] on the ASCII range. *)
Definition lower_char (c : ascii) : ascii :=
  let n := nat_of_ascii c in
  if ((65 <=? n)%nat && (n <=? 90)%nat)%bool then ascii_of_nat (n + 32) else c.

Fixpoint lower (s : string) : string :=
  match s with
  | EmptyString => EmptyString
  | String c s' => String (lower_char c) (lower s')
  end.

(** [s.startswith(p)] *)
Fixpoint startswith (p s : string) : bool :=
  match p, s with
  | EmptyString, _ => true
  | String a p', String b s' => if Ascii.eqb a b then startswith p' s' else false
  | String _ _, EmptyString => false
  end.

(** [p in s] on strings: [p] occurs in [s] as a contiguous run. *)
Fixpoint contains (p s : string) : bool :=
  if startswith p s then true
  else match s with
       | EmptyString => false
       | String _ s' => contains p s'
       end.

(** [s.endswith(p)] *)
Definition endswith (p s : string) : bool :=
  startswith (String.rev p) (String.rev s).

(** What is left of [s] after the prefix [p], when [s] starts with it. *)
Fixpoint strip_prefix (p s : string) : option string :=
  match p, s with
  | EmptyString, _ => Some s
  | String a p', String b s' => if Ascii.eqb a b then strip_prefix p' s' else None
  | String _ _, EmptyString => None
  end.

Inductive os_kind := Nt | Posix.

Definition sep (os : os_kind) : string :=
  match os with Nt => "\" | Posix => "/" end.

(** [os.path.join(a, b)] for a component [b] without a drive letter. *)
Definition path_join (os : os_kind) (a b : string) : string :=
  if startswith (sep os) b then b
  else if (String.eqb a EmptyString || endswith (sep os) a)%bool then a +:+ b
  else a +:+ sep os +:+ b.

(** [xs[lo:hi]] for [0 <= lo <= hi]. *)
Definition slice {A} (lo hi : nat) (xs : list A) : list A :=
  firstn (hi - lo) (skipn lo xs).

Fixpoint bytes_eqb (xs ys : list byte) : bool :=
  match xs, ys with
  | [], [] => true
  | x :: xs', y :: ys' => (Byte.eqb x y && bytes_eqb xs' ys')%bool
  | _, _ => false
  end.

(** ** Results, the outside world and the process state *)

(** The dictionaries [{'success': True, ...}] and
    [{'success': False, 'error': ...}] every operation returns. *)
Inductive Result :=
| Success (fields : list (string * string))
| Failure (error : string).

Definition succeeded (r : Result) : bool :=
  match r with Success _ => true | Failure _ => false end.

Fixpoint assoc (k : string) (kvs : list (string * string)) : option string :=
  match kvs with
  | [] => None
  | (k', v) :: rest => if String.eqb k k' then Some v else assoc k rest
  end.

(** What [subprocess.run] does: the tool runs to completion, or the call
    itself raises (the executable is missing, for instance). *)
Inductive run_outcome :=
| Completed (returncode : Z) (stderr : string)
| SpawnError (msg : string).

Inductive command :=
| Argv (args : list string)
| Shell (line : string).

(** Observable events, oldest first. *)
Inductive event :=
| Ran (c : command) (o : run_outcome)          (* an external tool was run *)
| Called (method : string) (args : list string)
| Returned (method : string) (success : bool)
| Progress (p : Z).                            (* operation_progress = p *)

Record World := mkWorld {
  os_name : os_kind;
  paths : gset string;             (* paths that exist *)
  tick : nat;                      (* external interactions so far *)
  proc_at : nat -> run_outcome;    (* what the n-th interaction does, as a process *)
  io_at : nat -> option string;    (* ... as library I/O: [Some msg] raises *)
  tmp_at : nat -> string;          (* ... as [tempfile.mkdtemp]: the random part *)
  stamp_at : nat -> string;        (* ... as [datetime.now()], formatted *)
  busy_at : nat -> gset string;    (* paths that cannot be deleted at that time *)
  trace : list event
}.

Record BackupInfo := mkBackupInfo {
  bi_id : string;
  bi_path : string;
  bi_timestamp : string;
  bi_status : string
}.

Record IsoManager := mkIsoManager {
  mounted_isos : list (string * string);   (* insertion-ordered dictionary *)
  temp_directory : string
}.

(** The [backup_info] dictionaries live in [objects]; both catalogs hold
    references (indices) to them, as the Python dictionaries do. *)
Record BackupManager := mkBackupManager {
  objects : list BackupInfo;
  active_backups : gmap string nat;
  backup_metadata : gmap string nat
}.

Record State := mkState {
  world : World;
  iso_manager : IsoManager;
  backup_manager : BackupManager;
  operation_log : list string;           (* PartitionManager.operation_log *)
  current_operation : option string;     (* NexusEngine *)
  operation_progress : Z                 (* NexusEngine *)
}.

Definition with_world (f : World -> World) (st : State) : State :=
  mkState (f (world st)) (iso_manager st) (backup_manager st)
          (operation_log st) (current_operation st) (operation_progress st).

Definition with_iso (f : IsoManager -> IsoManager) (st : State) : State :=
  mkState (world st) (f (iso_manager st)) (backup_manager st)
          (operation_log st) (current_operation st) (operation_progress st).

Definition with_backup (f : BackupManager -> BackupManager) (st : State) : State :=
  mkState (world st) (iso_manager st) (f (backup_manager st))
          (operation_log st) (current_operation st) (operation_progress st).

Definition with_operation_log (f : list string -> list string) (st : State) : State :=
  mkState (world st) (iso_manager st) (backup_manager st)
          (f (operation_log st)) (current_operation st) (operation_progress st).

Definition set_current_operation (o : option string) (st : State) : State :=
  mkState (world st) (iso_manager st) (backup_manager st)
          (operation_log st) o (operation_progress st).

Definition set_paths (ps : gset string) (w : World) : World :=
  mkWorld (os_name w) ps (tick w) (proc_at w) (io_at w) (tmp_at w) (stamp_at w)
          (busy_at w) (trace w).

Definition step (w : World) : World :=
  mkWorld (os_name w) (paths w) (S (tick w)) (proc_at w) (io_at w) (tmp_at w)
          (stamp_at w) (busy_at w) (trace w).

Definition emit (e : event) (w : World) : World :=
  mkWorld (os_name w) (paths w) (tick w) (proc_at w) (io_at w) (tmp_at w)
          (stamp_at w) (busy_at w) (trace w ++ [e]).

(** ** The monad: state passing, with Python exceptions *)

Inductive outcome (A : Type) :=
| Val (a : A)
| Exc (msg : string).
Arguments Val {A} a.
Arguments Exc {A} msg.

Definition M (A : Type) : Type := State -> outcome A * State.

Definition ret {A} (a : A) : M A := fun st => (Val a, st).
Definition raise {A} (msg : string) : M A := fun st => (Exc msg, st).

Definition bind {A B} (m : M A) (k : A -> M B) : M B :=
  fun st => match m st with
            | (Val a, st') => k a st'
            | (Exc e, st') => (Exc e, st')
            end.

Notation "'let*' x ':=' m 'in' k" := (bind m (fun x => k))
  (at level 10, x name, m at level 100, k at level 200, only parsing).

(** [try: body / except Exception as e: handler(str(e))] *)
Definition try_except {A} (body : M A) (handler : string -> M A) : M A :=
  fun st => match body st with
            | (Val a, st') => (Val a, st')
            | (Exc e, st') => handler e st'
            end.

(** [try: body / finally: fin], where [fin] itself does not raise. *)
Definition try_finally {A} (body : M A) (fin : State -> State) : M A :=
  fun st => let '(r, st') := body st in (r, fin st').

Definition get : M State := fun st => (Val st, st).
Definition modify (f : State -> State) : M unit := fun st => (Val tt, f st).
Definition log (e : event) : M unit := modify (with_world (emit e)).

(** [subprocess.run(...)]: one interaction with the outside. *)
Definition subprocess_run (c : command) : M (Z * string) :=
  fun st =>
    let w := world st in
    let st' := with_world (fun w => step (emit (Ran c (proc_at w (tick w))) w)) st in
    match proc_at w (tick w) with
    | Completed rc err => (Val (rc, err), st')
    | SpawnError msg => (Exc msg, st')
    end.

(** [tempfile.mkdtemp(prefix=...)]: a new directory under the temporary
    directory of the platform. *)
Definition gettempdir (os : os_kind) : string :=
  match os with Nt => "C:\Temp" | Posix => "/tmp" end.

Definition mkdtemp (prefix : string) : M string :=
  fun st =>
    let w := world st in
    match io_at w (tick w) with
    | Some msg => (Exc msg, with_world step st)
    | None =>
        let d := path_join (os_name w) (gettempdir (os_name w))
                           (prefix +:+ tmp_at w (tick w)) in
        (Val d, with_world (fun w => step (set_paths ({[d]} ∪ paths w) w)) st)
    end.

(** [os.makedirs(p, exist_ok=True)] *)
Definition makedirs (p : string) : M unit :=
  fun st =>
    let w := world st in
    match io_at w (tick w) with
    | Some msg => (Exc msg, with_world step st)
    | None => (Val tt, with_world (fun w => step (set_paths ({[p]} ∪ paths w) w)) st)
    end.

(** Library I/O whose effect on the file system is not followed here
    (writing or unpacking an archive): it completes or it raises. *)
Definition library_io : M unit :=
  fun st =>
    let w := world st in
    match io_at w (tick w) with
    | Some msg => (Exc msg, with_world step st)
    | None => (Val tt, with_world step st)
    end.

(** [datetime.now()], already formatted. *)
Definition now : M string :=
  fun st => (Val (stamp_at (world st) (tick (world st))), with_world step st).

(** [q] is [p] or lies below it. *)
Definition below (os : os_kind) (p q : string) : bool :=
  (String.eqb p q || startswith (p +:+ sep os) q)%bool.

(** [shutil.rmtree(p, ignore_errors=True)]: of [p] and what lies below
    it, whatever can be deleted goes; what cannot (a mount point in use,
    the content of a read-only image, a directory with such a thing in
    it) stays, and the error is swallowed: the call never raises. Which
    paths resist is the environment's: [busy_at]. *)
Definition rmtree (p : string) : M unit :=
  modify (with_world (fun w =>
    set_paths (filter (fun q => below (os_name w) p q = false \/ q ∈ busy_at w (tick w))
                      (paths w)) w)).

Definition path_exists (p : string) : M bool :=
  fun st => (Val (bool_decide (p ∈ paths (world st))), st).

(** A method of one of the managers: its call and its return are
    observable. *)
Definition traced (method : string) (args : list string) (body : M Result) : M Result :=
  let* _ := log (Called method args) in
  let* r := body in
  let* _ := log (Returned method (succeeded r)) in
  ret r.

(** [d[k]] on a result dictionary: [KeyError] when the key is missing. *)
Definition getitem (r : Result) (k : string) : M string :=
  match r with
  | Success fields =>
      match assoc k fields with
      | Some v => ret v
      | None => raise k
      end
  | Failure _ => raise k
  end.

(** The loop
    [for command in commands: result = subprocess.run(...);
     if <status rejected>: return <failure>]
    followed by the rest of the function. *)
Fixpoint run_each (mk : string -> command) (rejected : Z -> bool)
    (failure : string -> Result) (commands : list string) (rest : M Result) : M Result :=
  match commands with
  | [] => rest
  | c :: cs =>
      let* result := subprocess_run (mk c) in
      if rejected result.1 then ret (failure result.2)
      else run_each mk rejected failure cs rest
  end.

Definition powershell (c : string) : command := Argv ["powershell"; "-Command"; c].

Definition q : string := String dquote EmptyString.

(** ** Insertion-ordered dictionaries with string keys and values
    ([IsoManager.mounted_isos]; [cleanup] walks its keys in order) *)

Definition dict := list (string * string).

Fixpoint dict_set (k v : string) (d : dict) : dict :=
  match d with
  | [] => [(k, v)]
  | (k', v') :: rest =>
      if String.eqb k k' then (k, v) :: rest else (k', v') :: dict_set k v rest
  end.

Definition dict_del (k : string) (d : dict) : dict :=
  List.filter (fun kv => negb (String.eqb k kv.1)) d.

Definition dict_keys (d : dict) : list string := map fst d.

(** ** iso_manager.py *)

(** What [validate_iso_file] reads: what is stored under each path. *)
Inductive inode :=
| Directory (st_size : Z)
| Regular (data : list byte).

Inductive Validation :=
| Valid (size : Z)
| Invalid (error : string).

Definition getsize (n : inode) : Z :=
  match n with
  | Directory st_size => st_size
  | Regular data => Z.of_nat (length data)
  end.

Definition CD001 : list byte := [x43; x44; x30; x30; x31].

Definition _verify_iso_structure (disk : gmap string inode) (iso_path : string) : bool :=
  match disk !! iso_path with
  | Some (Regular data) =>
      let header := firstn 2048 data in
      if (length header <? 2048)%nat then false
      else if bytes_eqb (slice 0 5 header) CD001 then true
      else if bytes_eqb (slice 0 4 header) [x00; x00; x00; x00] then true
      else false
  | _ => false                   (* [open] raises: [except Exception] *)
  end.

Definition validate_iso_file (disk : gmap string inode) (iso_path : string) : Validation :=
  match disk !! iso_path with
  | None => Invalid "File does not exist"
  | Some node =>
      let file_size := getsize node in
      if file_size <? 1024 * 1024 then Invalid "File too small to be valid ISO"
      else if negb (_verify_iso_structure disk iso_path) then Invalid "Invalid ISO structure"
      else Valid file_size
  end.

Definition set_mounted (d : dict) (m : IsoManager) : IsoManager :=
  mkIsoManager d (temp_directory m).

Definition mount_iso (iso_path : string) : M Result :=
  traced "mount_iso" [iso_path]
    (try_except
       (let* st := get in
        let os := os_name (world st) in
        let mount_point :=
          path_join os (temp_directory (iso_manager st))
                    ("mount_" +:+ pretty (length (mounted_isos (iso_manager st)))) in
        let* _ := makedirs mount_point in
        let* result :=
          subprocess_run
            (match os with
             | Nt => powershell ("Mount-DiskImage -ImagePath " +:+ q +:+ iso_path +:+ q
                       +:+ " -PassThru | Get-Volume | Get-Partition | Add-PartitionAccessPath -AccessPath "
                       +:+ q +:+ mount_point +:+ q)
             | Posix => Argv ["sudo"; "mount"; "-o"; "loop"; iso_path; mount_point]
             end) in
        if result.1 =? 0 then
          let* _ := modify (with_iso (fun m => set_mounted (dict_set iso_path mount_point (mounted_isos m)) m)) in
          ret (Success [("mount_point", mount_point)])
        else ret (Failure result.2))
       (fun e => ret (Failure e))).

Definition unmount_iso (iso_path : string) : M Result :=
  traced "unmount_iso" [iso_path]
    (try_except
       (let* st := get in
        match assoc iso_path (mounted_isos (iso_manager st)) with
        | None => ret (Failure "ISO not mounted")
        | Some mount_point =>
            let* result :=
              subprocess_run
                (match os_name (world st) with
                 | Nt => powershell ("Dismount-DiskImage -ImagePath " +:+ q +:+ iso_path +:+ q)
                 | Posix => Argv ["sudo"; "umount"; mount_point]
                 end) in
            if result.1 =? 0 then
              let* _ := modify (with_iso (fun m => set_mounted (dict_del iso_path (mounted_isos m)) m)) in
              let* _ := rmtree mount_point in
              ret (Success [])
            else ret (Failure result.2)
        end)
       (fun e => ret (Failure e))).

Definition possible_scripts : list string :=
  ["setup.exe"; "install.exe"; "autorun.exe"; "install.sh"; "setup.sh"; "installer"].

Fixpoint find_first_script (mount_point : string) (scripts : list string) : M (option string) :=
  match scripts with
  | [] => ret None
  | script :: rest =>
      let* st := get in
      let script_path := path_join (os_name (world st)) mount_point script in
      let* found := path_exists script_path in
      if found then ret (Some script_path) else find_first_script mount_point rest
  end.

Definition _find_install_script (mount_point : string) : M (option string) :=
  find_first_script mount_point possible_scripts.

Definition install_from_mounted (mount_point target_partition : string) : M Result :=
  traced "install_from_mounted" [mount_point; target_partition]
    (try_except
       (let* install_script := _find_install_script mount_point in
        match install_script with
        | None => ret (Failure "No installation script found")
        | Some install_script =>
            let* st := get in
            let* result :=
              subprocess_run
                (match os_name (world st) with
                 | Nt => powershell ("Start-Process -FilePath " +:+ q +:+ install_script +:+ q
                           +:+ " -ArgumentList " +:+ q +:+ "/s /t:" +:+ target_partition +:+ q
                           +:+ " -Wait")
                 | Posix => Argv ["sudo"; "bash"; install_script; target_partition]
                 end) in
            if result.1 =? 0 then ret (Success []) else ret (Failure result.2)
        end)
       (fun e => ret (Failure e))).

(** [for iso_path in list(self.mounted_isos.keys()): self.unmount_iso(iso_path)] *)
Fixpoint unmount_each (keys : list string) : M unit :=
  match keys with
  | [] => ret tt
  | iso_path :: rest =>
      let* _ := unmount_iso iso_path in
      unmount_each rest
  end.

Definition cleanup : M unit :=
  let* st := get in
  let* _ := unmount_each (dict_keys (mounted_isos (iso_manager st))) in
  let* there := path_exists (temp_directory (iso_manager st)) in
  if there then rmtree (temp_directory (iso_manager st)) else ret tt.

(** ** partition_manager.py *)

Definition _prepare_windows_partition (partition_identifier : string) : M Result :=
  try_except
    (run_each powershell (fun rc => negb (rc =? 0))
       (fun stderr => Failure ("Command failed: " +:+ stderr))
       ["Get-Partition -PartitionNumber " +:+ partition_identifier
          +:+ " | Set-Partition -IsActive $true";
        "Format-Volume -DriveLetter " +:+ partition_identifier
          +:+ " -FileSystem NTFS -Confirm:$false"]
       (let* _ := modify (with_operation_log
                    (fun l => (l ++ ["Prepared Windows partition " +:+ partition_identifier])%list)) in
        ret (Success [("message", "Partition " +:+ partition_identifier +:+ " prepared")])))
    (fun e => ret (Failure e)).

Definition _prepare_unix_partition (partition_identifier : string) : M Result :=
  try_except
    (run_each (fun c => Argv (String.words c)) (fun rc => negb (rc =? 0))
       (fun stderr => Failure ("Command failed: " +:+ stderr))
       ["sudo mkfs.ext4 -F " +:+ partition_identifier;
        "sudo mkdir -p /mnt/detorrent_install";
        "sudo mount " +:+ partition_identifier +:+ " /mnt/detorrent_install"]
       (let* _ := modify (with_operation_log
                    (fun l => (l ++ ["Prepared Unix partition " +:+ partition_identifier])%list)) in
        ret (Success [("message", "Partition " +:+ partition_identifier +:+ " prepared")])))
    (fun e => ret (Failure e)).

Definition prepare_partition (partition_identifier : string) : M Result :=
  traced "prepare_partition" [partition_identifier]
    (try_except
       (let* st := get in
        match os_name (world st) with
        | Nt => _prepare_windows_partition partition_identifier
        | Posix => _prepare_unix_partition partition_identifier
        end)
       (fun e => ret (Failure e))).

(** ** bootloader_manager.py *)

Definition _configure_windows_bootloader (target_partition : string) : M Result :=
  try_except
    (run_each powershell (fun rc => negb (rc =? 0))
       (fun stderr => Failure ("BCD command failed: " +:+ stderr))
       ["bcdedit /create /d " +:+ q +:+ "Detorrent OS" +:+ q +:+ " /application bootsector";
        "bcdedit /set {bootmgr} timeout 10";
        "bcdedit /set {bootmgr} displayorder {default}"]
       (ret (Success [("message", "Windows bootloader configured")])))
    (fun e => ret (Failure e)).

(** Writing [/etc/grub.d/40_detorrent] and [os.chmod] on it are library
    I/O; then [update-grub] is run. *)
Definition _configure_grub_bootloader (target_partition : string) : M Result :=
  try_except
    (let* _ := library_io in
     let* _ := library_io in
     let* result := subprocess_run (Argv ["sudo"; "update-grub"]) in
     if result.1 =? 0 then ret (Success [("message", "GRUB bootloader configured")])
     else ret (Failure result.2))
    (fun e => ret (Failure e)).

Definition configure_bootloader (target_partition : string) : M Result :=
  traced "configure_bootloader" [target_partition]
    (try_except
       (let* st := get in
        match os_name (world st) with
        | Nt => _configure_windows_bootloader target_partition
        | Posix => _configure_grub_bootloader target_partition
        end)
       (fun e => ret (Failure e))).

(** ** backup_manager.py *)

Definition set_objects (os : list BackupInfo) (b : BackupManager) : BackupManager :=
  mkBackupManager os (active_backups b) (backup_metadata b).

Definition set_active_backups (m : gmap string nat) (b : BackupManager) : BackupManager :=
  mkBackupManager (objects b) m (backup_metadata b).

Definition set_backup_metadata (m : gmap string nat) (b : BackupManager) : BackupManager :=
  mkBackupManager (objects b) (active_backups b) m.

(** A new dictionary object; the result is the reference to it. *)
Definition new_object (info : BackupInfo) : M nat :=
  fun st =>
    let b := backup_manager st in
    (Val (length (objects b)),
     with_backup (set_objects (objects b ++ [info])%list) st).

(** [ref['status'] = status] *)
Definition set_status (ref : nat) (status : string) : M unit :=
  modify (with_backup (fun b =>
    match objects b !! ref with
    | Some info =>
        set_objects (<[ref := mkBackupInfo (bi_id info) (bi_path info)
                                 (bi_timestamp info) status]> (objects b)) b
    | None => b
    end)).

Definition _generate_backup_id : M string :=
  let* timestamp := now in
  ret ("detorrent_backup_" +:+ timestamp).

Definition windows_backup_items : list string :=
  ["C:\Windows\System32\config"; "C:\Windows\Boot"; "C:\Windows\System32\drivers";
   "C:\ProgramData\Microsoft\Windows\Start Menu"; "C:\Users"].

Definition unix_backup_items : list string :=
  ["/etc"; "/boot"; "/home"; "/var/log"; "/usr/local"].

(** Writing the archive of [items] to [backup_file] is library I/O: it
    raises, or the archive exists afterwards. *)
Definition write_archive (backup_file : string) (items : list string) : M unit :=
  let* _ := library_io in
  modify (with_world (fun w => set_paths ({[backup_file]} ∪ paths w) w)).

Definition _create_windows_backup (backup_path backup_id : string) : M Result :=
  try_except
    (let* st := get in
     let backup_file := path_join (os_name (world st)) backup_path (backup_id +:+ ".zip") in
     let* _ := write_archive backup_file windows_backup_items in
     ret (Success [("backup_file", backup_file)]))
    (fun e => ret (Failure e)).

Definition _create_unix_backup (backup_path backup_id : string) : M Result :=
  try_except
    (let* st := get in
     let backup_file := path_join (os_name (world st)) backup_path (backup_id +:+ ".tar.gz") in
     let* _ := write_archive backup_file unix_backup_items in
     ret (Success [("backup_file", backup_file)]))
    (fun e => ret (Failure e)).

Definition create_system_backup (backup_path : string) : M Result :=
  traced "create_system_backup" [backup_path]
    (try_except
       (let* there := path_exists backup_path in
        let* _ := (if there then ret tt else makedirs backup_path) in
        let* backup_id := _generate_backup_id in
        let* timestamp := now in
        let* backup_info := new_object (mkBackupInfo backup_id backup_path timestamp "in_progress") in
        let* _ := modify (with_backup (fun b =>
                    set_active_backups (<[backup_id := backup_info]> (active_backups b)) b)) in
        let* st := get in
        let* result :=
          match os_name (world st) with
          | Nt => _create_windows_backup backup_path backup_id
          | Posix => _create_unix_backup backup_path backup_id
          end in
        match result with
        | Success _ =>
            let* _ := set_status backup_info "completed" in
            let* _ := modify (with_backup (fun b =>
                        set_backup_metadata (<[backup_id := backup_info]> (backup_metadata b)) b)) in
            ret (Success [("backup_id", backup_id); ("path", backup_path)])
        | Failure error =>
            let* _ := set_status backup_info "failed" in
            ret (Failure error)
        end)
       (fun e => ret (Failure e))).

(** [self.backup_metadata.get(backup_id, {})]: [None] is the empty
    dictionary. *)
Definition get_backup_metadata (backup_id : string) (st : State) : option BackupInfo :=
  match backup_metadata (backup_manager st) !! backup_id with
  | Some ref => objects (backup_manager st) !! ref
  | None => None
  end.

Definition windows_restore_commands (temp_extract_dir : string) : list string :=
  ["robocopy " +:+ q +:+ temp_extract_dir +:+ q +:+ " " +:+ q
     +:+ "C:\Windows\System32\config" +:+ q +:+ " /E /Y";
   "robocopy " +:+ q +:+ temp_extract_dir +:+ q +:+ " " +:+ q
     +:+ "C:\Windows\Boot" +:+ q +:+ " /E /Y";
   "robocopy " +:+ q +:+ temp_extract_dir +:+ q +:+ " " +:+ q
     +:+ "C:\Users" +:+ q +:+ " /E /Y"].

Definition unix_restore_commands (temp_extract_dir : string) : list string :=
  ["sudo cp -r " +:+ q +:+ temp_extract_dir +:+ "/etc" +:+ q +:+ " " +:+ q +:+ "/etc" +:+ q;
   "sudo cp -r " +:+ q +:+ temp_extract_dir +:+ "/boot" +:+ q +:+ " " +:+ q +:+ "/boot" +:+ q;
   "sudo cp -r " +:+ q +:+ temp_extract_dir +:+ "/home" +:+ q +:+ " " +:+ q +:+ "/home" +:+ q].

Definition _restore_windows_backup (backup_file : string) : M Result :=
  try_except
    (if negb (endswith ".zip" backup_file) then ret (Failure "Invalid backup file format")
     else
       let* temp_extract_dir := mkdtemp "detorrent_restore_" in
       let* _ := library_io in                         (* [zipf.extractall] *)
       run_each Shell (fun rc => negb ((rc =? 0) || (rc =? 1)))
         (fun stderr => Failure ("Restore command failed: " +:+ stderr))
         (windows_restore_commands temp_extract_dir)
         (let* _ := rmtree temp_extract_dir in
          ret (Success [("message", "Windows backup restored successfully")])))
    (fun e => ret (Failure e)).

Definition _restore_unix_backup (backup_file : string) : M Result :=
  try_except
    (if negb (endswith ".tar.gz" backup_file) then ret (Failure "Invalid backup file format")
     else
       let* temp_extract_dir := mkdtemp "detorrent_restore_" in
       let* _ := library_io in                         (* [tarf.extractall] *)
       run_each (fun c => Argv (String.words c)) (fun rc => negb (rc =? 0))
         (fun stderr => Failure ("Restore command failed: " +:+ stderr))
         (unix_restore_commands temp_extract_dir)
         (let* _ := rmtree temp_extract_dir in
          ret (Success [("message", "Unix backup restored successfully")])))
    (fun e => ret (Failure e)).

(** ** nexus_engine.py *)

Definition set_progress (p : Z) (st : State) : State :=
  with_world (emit (Progress p))
    (mkState (world st) (iso_manager st) (backup_manager st)
             (operation_log st) (current_operation st) p).

Definition create_backup (backup_path : string) : M Result :=
  create_system_backup backup_path.

Definition execute_os_switch (iso_path target_partition : string) (preserve_data : bool)
  : M Result :=
  try_finally
    (try_except
       (let* _ := modify (set_current_operation (Some "os_switch")) in
        let* _ := modify (set_progress 0) in
        let* backup_ok :=
          (if preserve_data then
             let* d := mkdtemp "tmp" in
             let* backup_result := create_backup d in
             ret (succeeded backup_result)
           else ret true) in
        if negb backup_ok then ret (Failure "Backup failed")
        else
          let* _ := modify (set_progress 20) in
          let* mount_result := mount_iso iso_path in
          if negb (succeeded mount_result) then ret (Failure "ISO mount failed")
          else
            let* _ := modify (set_progress 40) in
            let* partition_result := prepare_partition target_partition in
            if negb (succeeded partition_result)
            then ret (Failure "Partition preparation failed")
            else
              let* _ := modify (set_progress 60) in
              let* mount_point := getitem mount_result "mount_point" in
              let* install_result := install_from_mounted mount_point target_partition in
              if negb (succeeded install_result) then ret (Failure "Installation failed")
              else
                let* _ := modify (set_progress 80) in
                let* bootloader_result := configure_bootloader target_partition in
                if negb (succeeded bootloader_result)
                then ret (Failure "Bootloader configuration failed")
                else
                  let* _ := modify (set_progress 100) in
                  ret (Success [("message", "OS switch completed successfully")]))
       (fun e => ret (Failure e)))
    (fun st => set_progress 0 (set_current_operation None st)).

Definition get_operation_status (st : State) : option string * Z :=
  (current_operation st, operation_progress st).

(** ** os_detector.py *)

(** A mounted tree: what lies below the mount point, in directory order. *)
#[warnings="-register-all"] Inductive entry :=
| File (name : string) (content : string)
| Dir (name : string) (children : list entry).

Definition entry_name (e : entry) : string :=
  match e with File name _ => name | Dir name _ => name end.

Definition dir_names (es : list entry) : list string :=
  flat_map (fun e => match e with Dir name _ => [name] | File _ _ => [] end) es.

Definition file_names (es : list entry) : list string :=
  flat_map (fun e => match e with File name _ => [name] | Dir _ _ => [] end) es.

(** [os.walk], top down: one [(root, dirs, files)] per directory. *)
Fixpoint walk_entry (os : os_kind) (top : string) (e : entry)
  : list (string * list string * list string) :=
  match e with
  | File _ _ => []
  | Dir name children =>
      let root := path_join os top name in
      (root, dir_names children, file_names children)
        :: flat_map (walk_entry os root) children
  end.

Definition os_walk (os : os_kind) (top : string) (es : list entry)
  : list (string * list string * list string) :=
  (top, dir_names es, file_names es) :: flat_map (walk_entry os top) es.

(** [os.path.exists(os.path.join(top, *names))] inside the tree. *)
Fixpoint lookup_path (names : list string) (es : list entry) : option entry :=
  match names with
  | [] => None
  | name :: rest =>
      match List.find (fun e => String.eqb (entry_name e) name) es with
      | None => None
      | Some e =>
          match rest, e with
          | [], _ => Some e
          | _ :: _, Dir _ children => lookup_path rest children
          | _ :: _, File _ _ => None
          end
      end
  end.

Record Signature := mkSignature {
  patterns : list string;
  files : list string;
  directories : list string
}.

Definition windows_signatures : Signature :=
  mkSignature ["windows"; "winnt"; "win32"]
              ["bootmgr"; "ntldr"; "winload.exe"]
              ["Windows"; "Program Files"].

Definition linux_signatures : Signature :=
  mkSignature ["linux"; "ubuntu"; "debian"; "fedora"; "centos"]
              ["vmlinuz"; "initrd.img"; "grub.cfg"]
              ["boot"; "etc"; "usr"].

Definition macos_signatures : Signature :=
  mkSignature ["macos"; "darwin"; "mac os"]
              ["mach_kernel"; "boot.efi"]
              ["System"; "Applications"].

(** [self.os_signatures], in the order the dictionary is written in. *)
Definition os_signatures : list (string * Signature) :=
  [("windows", windows_signatures); ("linux", linux_signatures);
   ("macos", macos_signatures)].

(** [re.search(pattern, s, re.IGNORECASE) is not None]. The regular
    expression engine belongs to the library, not to the program: the
    program is modelled for any engine, and no statement below depends on
    what the engine takes for a match. *)
Class Regex := re_search_ignorecase : string -> string -> bool.

Section Detector.
Context {engine : Regex}.

Definition _search_in_directory (os : os_kind) (directory : string) (tree : list entry)
    (pattern : string) (regex : bool) : bool :=
  existsb (fun '(root, dirs, files) =>
             existsb (fun file =>
                        if regex then re_search_ignorecase pattern file
                        else contains (lower pattern) (lower file))
                     files)
          (os_walk os directory tree).

Definition matches_patterns os mount_point tree (signatures : Signature) : bool :=
  existsb (fun pattern => _search_in_directory os mount_point tree pattern true)
          (patterns signatures).

Definition matches_files os mount_point tree (signatures : Signature) : bool :=
  existsb (fun file_name => _search_in_directory os mount_point tree file_name false)
          (files signatures).

Definition matches_directories (tree : list entry) (signatures : Signature) : bool :=
  existsb (fun dir_name => bool_decide (is_Some (lookup_path [dir_name] tree)))
          (directories signatures).

Definition _matches_signatures (os : os_kind) (mount_point : string) (tree : list entry)
    (signatures : Signature) : bool :=
  if matches_patterns os mount_point tree signatures then true
  else if matches_files os mount_point tree signatures then true
  else if matches_directories tree signatures then true
  else false.

Definition _extract_windows_version (os : os_kind) (mount_point : string)
    (tree : list entry) : gmap string string :=
  fold_left
    (fun version_info '(root, dirs, files) =>
       match List.find (fun file => String.eqb (lower file) "setup.exe") files with
       | Some file => <["installer" := path_join os root file]> version_info
       | None => version_info
       end)
    (os_walk os mount_point tree)
    (<["name" := "Windows"]> (<["version" := "Unknown"]> ∅)).

Fixpoint take_until_quote (s : string) : string * string :=
  match s with
  | EmptyString => (EmptyString, EmptyString)
  | String c s' =>
      if Ascii.eqb c dquote then (EmptyString, s)
      else let '(body, rest) := take_until_quote s' in (String c body, rest)
  end.

(** [re.search] for [key], a double quote, a group of one or more
    characters other than the double quote, and a double quote: the
    group of the leftmost match. *)
Fixpoint re_search_quoted (key s : string) : option string :=
  let here :=
    match strip_prefix (key +:+ q) s with
    | Some after =>
        match take_until_quote after with
        | (String c body, String _ _) => Some (String c body)
        | _ => None
        end
    | None => None
    end in
  match here with
  | Some group => Some group
  | None =>
      match s with
      | EmptyString => None
      | String _ s' => re_search_quoted key s'
      end
  end.

Definition _extract_linux_version (tree : list entry) : gmap string string :=
  let version_info : gmap string string :=
    <["name" := "Linux"]> (<["version" := "Unknown"]> ∅) in
  match lookup_path ["etc"; "os-release"] tree with
  | Some (File _ content) =>
      let version_info :=
        match re_search_quoted "NAME=" content with
        | Some name => <["name" := name]> version_info
        | None => version_info
        end in
      match re_search_quoted "VERSION=" content with
      | Some version => <["version" := version]> version_info
      | None => version_info
      end
  | Some (Dir _ _) => version_info      (* [open] raises: [except Exception] *)
  | None => version_info
  end.

Definition _extract_macos_version (os : os_kind) (mount_point : string)
    (tree : list entry) : gmap string string :=
  let version_info : gmap string string :=
    <["name" := "macOS"]> (<["version" := "Unknown"]> ∅) in
  let names := ["System"; "Library"; "CoreServices"; "SystemVersion.plist"] in
  match lookup_path names tree with
  | Some _ => <["version_file" := fold_left (path_join os) names mount_point]> version_info
  | None => version_info
  end.

Definition _extract_version_info (os : os_kind) (mount_point : string)
    (tree : list entry) (os_type : string) : gmap string string :=
  if String.eqb os_type "windows" then _extract_windows_version os mount_point tree
  else if String.eqb os_type "linux" then _extract_linux_version tree
  else if String.eqb os_type "macos" then _extract_macos_version os mount_point tree
  else ∅.

(** The loop over [self.os_signatures.items()], left at the first match. *)
Fixpoint analyze_loop (os : os_kind) (mount_point : string) (tree : list entry)
    (signature_sets : list (string * Signature)) (os_info : gmap string string)
  : gmap string string :=
  match signature_sets with
  | [] => os_info
  | (os_type, signatures) :: rest =>
      if _matches_signatures os mount_point tree signatures
      then _extract_version_info os mount_point tree os_type
             ∪ <["type" := os_type]> os_info        (* [os_info.update(...)] *)
      else analyze_loop os mount_point tree rest os_info
  end.

Definition _analyze_mounted_iso (os : os_kind) (mount_point : string)
    (tree : list entry) : gmap string string :=
  analyze_loop os mount_point tree os_signatures
    (<["name" := "Unknown"]> (<["version" := "Unknown"]>
       (<["architecture" := "Unknown"]> (<["type" := "Unknown"]> ∅)))).

End Detector.

(** ** os_detector.py: looking into an image *)

(** The answers are dictionaries; [{'error': msg}] is one of them. *)
Definition error_dict (msg : string) : gmap string string := <["error" := msg]> ∅.

Definition _mount_iso_temporarily (iso_path : string) : M (option string) :=
  try_except
    (let* mount_point := mkdtemp "detorrent_os_detect_" in
     let* st := get in
     let* result :=
       subprocess_run
         (match os_name (world st) with
          | Nt => powershell ("Mount-DiskImage -ImagePath " +:+ q +:+ iso_path +:+ q
                    +:+ " -PassThru | Get-Volume | Get-Partition | Add-PartitionAccessPath -AccessPath "
                    +:+ q +:+ mount_point +:+ q)
          | Posix => Argv ["sudo"; "mount"; "-o"; "loop"; iso_path; mount_point]
          end) in
     if result.1 =? 0 then ret (Some mount_point) else ret None)
    (fun _ => ret None).

Definition _unmount_iso_temporarily (mount_point : string) : M unit :=
  try_except
    (let* st := get in
     let* _ :=
       subprocess_run
         (match os_name (world st) with
          | Nt => powershell ("Dismount-DiskImage -ImagePath " +:+ q +:+ mount_point +:+ q)
          | Posix => Argv ["sudo"; "umount"; mount_point]
          end) in
     rmtree mount_point)
    (fun _ => ret tt).

Section Identification.
Context {engine : Regex}.

(** [tree] is what the image shows below its mount point once it is
    mounted. *)
Definition extract_os_info (tree : list entry) (iso_path : string) : M (gmap string string) :=
  try_except
    (let* mount_point := _mount_iso_temporarily iso_path in
     match mount_point with
     | None => ret (error_dict "Failed to mount ISO")
     | Some mount_point =>
         if String.eqb mount_point EmptyString then ret (error_dict "Failed to mount ISO")
         else
           let* st := get in
           let os_info := _analyze_mounted_iso (os_name (world st)) mount_point tree in
           let* _ := _unmount_iso_temporarily mount_point in
           ret os_info
     end)
    (fun e => ret (error_dict e)).

(** ** nexus_engine.py: preparing the target *)

Inductive Prepared :=
| PreparedOk (os_info : gmap string string)
| PrepareFailed (error : string).

Definition prepare_target_os (disk : gmap string inode) (tree : list entry)
    (iso_path : string) : M Prepared :=
  match validate_iso_file disk iso_path with
  | Invalid error => ret (PrepareFailed error)
  | Valid _ =>
      let* os_info := extract_os_info tree iso_path in
      ret (PreparedOk os_info)
  end.

End Identification.

(** ** backup_manager.py: choosing the backup to restore *)

Definition is_backup_name (file : string) : bool :=
  (endswith ".zip" file || endswith ".tar.gz" file)%bool.

(** [entries] is [os.listdir(backup_path)], each name with the
    modification time of the file; the result keeps the times. *)
Definition _find_backup_files (os : os_kind) (entries : list (string * Z))
    (backup_path : string) : list (string * Z) :=
  map (fun e => (path_join os backup_path e.1, e.2))
      (List.filter (fun e => is_backup_name e.1) entries).

(** [max(files, key=os.path.getmtime)] from [best] on: the first of the
    newest. *)
Fixpoint max_by_mtime (best : string * Z) (files : list (string * Z)) : string * Z :=
  match files with
  | [] => best
  | f :: rest => if best.2 <? f.2 then max_by_mtime f rest else max_by_mtime best rest
  end.

Definition restore_system_backup (entries : list (string * Z)) (backup_path : string)
  : M Result :=
  try_except
    (let* there := path_exists backup_path in
     if negb there then ret (Failure "Backup path does not exist")
     else
       let* st := get in
       match _find_backup_files (os_name (world st)) entries backup_path with
       | [] => ret (Failure "No backup files found")
       | f :: rest =>
           let latest_backup := (max_by_mtime f rest).1 in
           match os_name (world st) with
           | Nt => _restore_windows_backup latest_backup
           | Posix => _restore_unix_backup latest_backup
           end
       end)
    (fun e => ret (Failure e)).

(** * Definitions the statements use *)

(** ** Image validation *)

Definition MiB : Z := 1024 * 1024.

(** The two markers, read off the first 2048 bytes of the file. *)
Definition has_marker (data : list byte) : Prop :=
  firstn 5 (firstn 2048 data) = CD001
  \/ firstn 4 (firstn 2048 data) = [x00; x00; x00; x00].

Definition small_disk : gmap string inode :=
  {[ "tiny.iso" := Regular [x43; x44; x30; x30; x31] ]}.

Definition iso9660_image : list byte := CD001 ++ repeat x00 (N.to_nat 1048576).
Definition blank_image : list byte := repeat x00 (N.to_nat 1048576).
Definition junk_image : list byte := repeat x41 (N.to_nat 1048576).

(** ** Image identification *)

(** Every file name [os.walk] comes across. *)
Definition all_file_names (os : os_kind) (top : string) (tree : list entry) : list string :=
  flat_map (fun '(root, dirs, files) => files) (os_walk os top tree).

Definition detected_type {engine : Regex} (os : os_kind) (mount_point : string)
    (tree : list entry) : option string :=
  _analyze_mounted_iso os mount_point tree !! "type".

(** The search for a word, letter case aside: what the library's engine
    does with a pattern made of letters, digits and spaces, as the
    patterns of [os_signatures] are, on a name in ASCII. The examples run
    on it. *)
Definition word_search : Regex :=
  fun pattern s => contains (lower pattern) (lower s).

Definition decoy_tree : list entry := [File "notbootmgr.bak" EmptyString].

Definition mixed_tree : list entry :=
  [Dir "boot" [File "vmlinuz" EmptyString]; File "bootmgr" EmptyString;
   Dir "System" []].

(** ** Mount table *)

Definition mount_table (st : State) : dict := mounted_isos (iso_manager st).

Definition is_mounted (iso_path : string) (st : State) : Prop :=
  is_Some (assoc iso_path (mount_table st)).

(** The mount point [mount_iso] picks in state [st]. *)
Definition next_mount_point (st : State) : string :=
  path_join (os_name (world st)) (temp_directory (iso_manager st))
            ("mount_" +:+ pretty (length (mount_table st))).

Definition quiet_world (os : os_kind) : World :=
  mkWorld os ∅ 0 (fun _ => Completed 0 EmptyString) (fun _ => None)
          (fun n => pretty n) (fun n => pretty n) (fun _ => ∅) [].

Definition fresh_state (os : os_kind) : State :=
  mkState (quiet_world os) (mkIsoManager [] "/tmp/detorrent_iso_0")
          (mkBackupManager [] ∅ ∅) [] None 0.

(** A world in which [mount_1] cannot be deleted, nor the directory it
    is in: something stays mounted on it. *)
Definition world_busy_mount_point : World :=
  mkWorld Posix ∅ 0 (fun _ => Completed 0 EmptyString) (fun _ => None)
          (fun n => pretty n) (fun n => pretty n)
          (fun _ => {[ "/tmp/detorrent_iso_0/mount_1"; "/tmp/detorrent_iso_0" ]}) [].

(** The state after [a.iso] and [b.iso] were mounted and [a.iso] was
    unmounted: [b.iso] is on [mount_1], and the table has one entry. *)
Definition shared_mount_state : State :=
  (unmount_iso "a.iso"
     (mount_iso "b.iso"
        (mount_iso "a.iso"
           (mkState world_busy_mount_point (mkIsoManager [] "/tmp/detorrent_iso_0")
                    (mkBackupManager [] ∅ ∅) [] None 0)).2).2).2.

(** ** Frames: what a computation leaves alone *)

Definition is_ran (e : event) : Prop :=
  match e with Ran _ _ => True | _ => False end.

(** The trace grows by runs of external tools only. *)
Definition only_runs (st st' : State) : Prop :=
  exists evs, trace (world st') = (trace (world st) ++ evs)%list /\ Forall is_ran evs.

Definition same_iso (st st' : State) : Prop := iso_manager st' = iso_manager st.

Definition same_catalog (st st' : State) : Prop :=
  backup_manager st' = backup_manager st.

(** Whatever the outcome, the state the computation leaves is related to
    the one it started in. *)
Definition respects {A} (R : State -> State -> Prop) (m : M A) : Prop :=
  forall st, R st (m st).2.

(** The computation returns: it never raises. *)
Definition returns {A} (m : M A) : Prop :=
  forall st, exists a st', m st = (Val a, st').

(** ** Stages made of several commands *)

Inductive multi_stage :=
| PrepareWindows | PrepareUnix | ConfigureWindows | RestoreWindows | RestoreUnix.

Definition stage_fn (s : multi_stage) : string -> M Result :=
  match s with
  | PrepareWindows => _prepare_windows_partition
  | PrepareUnix => _prepare_unix_partition
  | ConfigureWindows => _configure_windows_bootloader
  | RestoreWindows => _restore_windows_backup
  | RestoreUnix => _restore_unix_backup
  end.

Definition stage_length (s : multi_stage) : nat :=
  match s with
  | PrepareWindows => 2
  | PrepareUnix | ConfigureWindows | RestoreWindows | RestoreUnix => 3
  end.

(** The exit statuses a stage takes for success, in the words of the
    specification. *)
Definition accepted (s : multi_stage) (rc : Z) : Prop :=
  match s with
  | RestoreWindows => rc = 0 \/ rc = 1
  | _ => rc = 0
  end.

Definition ran_accepted (s : multi_stage) (e : event) : Prop :=
  exists c rc err, e = Ran c (Completed rc err) /\ accepted s rc.

(** A world in which every tool exits with status [rc]. *)
Definition world_exiting (os : os_kind) (rc : Z) : World :=
  mkWorld os ∅ 0 (fun _ => Completed rc "warning") (fun _ => None)
          (fun n => pretty n) (fun n => pretty n) (fun _ => ∅) [].

Definition state_exiting (os : os_kind) (rc : Z) : State :=
  mkState (world_exiting os rc) (mkIsoManager [] "/tmp/detorrent_iso_0")
          (mkBackupManager [] ∅ ∅) [] None 0.

(** ** Restoring a backup *)

(** The first copy command of the restore exits with status [rc]; every
    other tool exits with status 0. *)
Definition world_failing_copy (os : os_kind) (rc : Z) : World :=
  mkWorld os ∅ 0
          (fun n => if (n =? 2)%nat then Completed rc "access denied"
                    else Completed 0 EmptyString)
          (fun _ => None) (fun n => pretty n) (fun n => pretty n) (fun _ => ∅) [].

Definition state_failing_copy (os : os_kind) (rc : Z) : State :=
  mkState (world_failing_copy os rc) (mkIsoManager [] "/tmp/detorrent_iso_0")
          (mkBackupManager [] ∅ ∅) [] None 0.

(** The directory [_restore_unix_backup] and [_restore_windows_backup]
    extract to, when started in [st]. *)
Definition restore_temp_dir (st : State) : string :=
  path_join (os_name (world st)) (gettempdir (os_name (world st)))
            ("detorrent_restore_" +:+ tmp_at (world st) (tick (world st))).

(** ** The backup catalog *)

(** One call of [create_system_backup] after the other. *)
Fixpoint run_backups (backup_paths : list string) : M (list Result) :=
  match backup_paths with
  | [] => ret []
  | p :: ps =>
      let* r := create_system_backup p in
      let* rs := run_backups ps in
      ret (r :: rs)
  end.

(** The id a successful call reports. *)
Definition reported_id (r : Result) : option string :=
  match r with
  | Success fields => assoc "backup_id" fields
  | Failure _ => None
  end.

(** Every catalog entry refers to a dictionary that says [completed]
    under the id it is filed under, and the id is a used one. *)
Definition catalog_ok (b : BackupManager) : Prop :=
  forall id ref,
    backup_metadata b !! id = Some ref ->
    (exists info, objects b !! ref = Some info
                  /\ bi_status info = "completed" /\ bi_id info = id)
    /\ is_Some (active_backups b !! id).

(** The id [_generate_backup_id] draws at time [t]. *)
Definition backup_id_at (st : State) (t : nat) : string :=
  "detorrent_backup_" +:+ stamp_at (world st) t.

(** Every id in use was drawn at an earlier time, and the catalog files
    an id under the dictionary the table of started backups has for it. *)
Definition ids_in_step (st : State) : Prop :=
  (forall id ref, active_backups (backup_manager st) !! id = Some ref ->
                  exists t, (t < tick (world st))%nat /\ id = backup_id_at st t)
  /\ (forall id ref, backup_metadata (backup_manager st) !! id = Some ref ->
                     active_backups (backup_manager st) !! id = Some ref).

(** The specification's word on failed backups: the id of a backup that
    is on file as failed gets the empty dictionary from the catalog. *)
Definition failed_backups_unrecorded (st : State) : Prop :=
  forall id ref info,
    active_backups (backup_manager st) !! id = Some ref ->
    objects (backup_manager st) !! ref = Some info ->
    bi_status info = "failed" ->
    get_backup_metadata id st = None.

(** The archive cannot be written the second time. *)
Definition world_second_backup_fails : World :=
  mkWorld Posix ∅ 0 (fun _ => Completed 0 EmptyString)
          (fun n => if (n =? 7)%nat then Some "No space left on device" else None)
          (fun n => pretty n) (fun n => pretty n) (fun _ => ∅) [].

Definition state_second_backup_fails : State :=
  mkState world_second_backup_fails (mkIsoManager [] "/tmp/detorrent_iso_0")
          (mkBackupManager [] ∅ ∅) [] None 0.

(** The clock does not move on between the calls, and the archive cannot
    be written the second time. *)
Definition world_same_second : World :=
  mkWorld Posix ∅ 0 (fun _ => Completed 0 EmptyString)
          (fun n => if (n =? 7)%nat then Some "No space left on device" else None)
          (fun n => pretty n) (fun _ => "20260101_120000") (fun _ => ∅) [].

Definition state_same_second : State :=
  mkState world_same_second (mkIsoManager [] "/tmp/detorrent_iso_0")
          (mkBackupManager [] ∅ ∅) [] None 0.

(** A call that succeeds answers with an id and the path it was given. *)
Definition reports (p : string) (r : Result) : Prop :=
  succeeded r = true -> exists id, r = Success [("backup_id", id); ("path", p)].

(** ** The migration run *)

(** The events of one call [method(args)] that returned [ok]: the call,
    the tools it ran, the return. *)
Definition call_block (method : string) (args : list string) (ok : bool)
    (evs : list event) : Prop :=
  exists inner,
    evs = (Called method args :: inner ++ [Returned method ok])%list
    /\ Forall is_ran inner.

Definition stage_block (method : string) (ok : bool) (evs : list event) : Prop :=
  exists args, call_block method args ok evs.

(** What a list of events says about returns, calls and progress. *)
Definition returns_of (evs : list event) : list (string * bool) :=
  flat_map (fun e => match e with Returned m ok => [(m, ok)] | _ => [] end) evs.

Definition calls_of (evs : list event) : list (string * list string) :=
  flat_map (fun e => match e with Called m args => [(m, args)] | _ => [] end) evs.

Definition progress_of (evs : list event) : list Z :=
  flat_map (fun e => match e with Progress p => [p] | _ => [] end) evs.

(** The methods the pipeline calls, in order, each with the message the
    run reports when the method fails. *)
Definition pipeline : list (string * string) :=
  [("create_system_backup", "Backup failed");
   ("mount_iso", "ISO mount failed");
   ("prepare_partition", "Partition preparation failed");
   ("install_from_mounted", "Installation failed");
   ("configure_bootloader", "Bootloader configuration failed")].


(** The paths [unmount_iso] was called on. *)
Definition unmounts_of (evs : list event) : list (list string) :=
  map snd (List.filter (fun c => String.eqb c.1 "unmount_iso") (calls_of evs)).

(** A world in which the image holds [setup.sh] at its root once it is
    mounted, and every tool exits with status 0. *)
Definition installable_state : State :=
  mkState (mkWorld Posix {[ "/tmp/detorrent_iso_0/mount_0/setup.sh" ]} 0
                   (fun _ => Completed 0 EmptyString) (fun _ => None)
                   (fun n => pretty n) (fun n => pretty n) (fun _ => ∅) [])
          (mkIsoManager [] "/tmp/detorrent_iso_0")
          (mkBackupManager [] ∅ ∅) [] None 0.

Definition backup_part (preserve_data : bool) (evs : list event) : Prop :=
  if preserve_data then stage_block "create_system_backup" true evs else evs = [].

(** The result of a run, whether the image was mounted in it, and the
    events of its [try] block, path by path. *)
Inductive run_events (preserve_data : bool) : Result -> bool -> list event -> Prop :=
| run_raised msg :
    run_events preserve_data (Failure msg) false [Progress 0]
| run_backup_failed b :
    stage_block "create_system_backup" false b ->
    run_events preserve_data (Failure "Backup failed") false (Progress 0 :: b)
| run_mount_failed b m :
    backup_part preserve_data b ->
    stage_block "mount_iso" false m ->
    run_events preserve_data (Failure "ISO mount failed") false
               (Progress 0 :: b ++ Progress 20 :: m)
| run_partition_failed b m p :
    backup_part preserve_data b ->
    stage_block "mount_iso" true m ->
    stage_block "prepare_partition" false p ->
    run_events preserve_data (Failure "Partition preparation failed") true
               (Progress 0 :: b ++ Progress 20 :: m ++ Progress 40 :: p)
| run_install_failed b m p i :
    backup_part preserve_data b ->
    stage_block "mount_iso" true m ->
    stage_block "prepare_partition" true p ->
    stage_block "install_from_mounted" false i ->
    run_events preserve_data (Failure "Installation failed") true
               (Progress 0 :: b ++ Progress 20 :: m ++ Progress 40 :: p
                  ++ Progress 60 :: i)
| run_bootloader_failed b m p i c :
    backup_part preserve_data b ->
    stage_block "mount_iso" true m ->
    stage_block "prepare_partition" true p ->
    stage_block "install_from_mounted" true i ->
    stage_block "configure_bootloader" false c ->
    run_events preserve_data (Failure "Bootloader configuration failed") true
               (Progress 0 :: b ++ Progress 20 :: m ++ Progress 40 :: p
                  ++ Progress 60 :: i ++ Progress 80 :: c)
| run_completed b m p i c :
    backup_part preserve_data b ->
    stage_block "mount_iso" true m ->
    stage_block "prepare_partition" true p ->
    stage_block "install_from_mounted" true i ->
    stage_block "configure_bootloader" true c ->
    run_events preserve_data (Success [("message", "OS switch completed successfully")])
               true
               (Progress 0 :: b ++ Progress 20 :: m ++ Progress 40 :: p
                  ++ Progress 60 :: i ++ Progress 80 :: c ++ [Progress 100]).

(** How often [unmount_iso] was called on [iso_path]. *)
Definition matching_unmounts (iso_path : string) (evs : list event) : nat :=
  length (List.filter (fun args => bool_decide (args = [iso_path])) (unmounts_of evs)).

(** ** Further scenarios and relations *)

(** The outside world answers alike in both states, and the image
    manager works in the same directory. *)
Definition same_env (st st' : State) : Prop :=
  proc_at (world st') = proc_at (world st)
  /\ io_at (world st') = io_at (world st)
  /\ os_name (world st') = os_name (world st)
  /\ temp_directory (iso_manager st') = temp_directory (iso_manager st).

(** Every tool exits with status 0 and no library call raises. *)
Definition all_goes_well (st : State) : Prop :=
  (forall n, io_at (world st) n = None)
  /\ (forall n, exists err, proc_at (world st) n = Completed 0 err).

(** Mount [a] and [b], unmount [a], mount [c]. *)
Definition remount_scenario (a b c : string) : M Result :=
  let* _ := mount_iso a in
  let* _ := mount_iso b in
  let* _ := unmount_iso a in
  mount_iso c.

(** What the code itself does to the state when it runs tools and nothing
    else: the count of interactions and the trace move on. *)
Definition ran_tools (st st1 : State) : Prop :=
  st1 = with_world (fun w => mkWorld (os_name w) (paths w) (tick (world st1)) (proc_at w)
                                     (io_at w) (tmp_at w) (stamp_at w) (busy_at w)
                                     (trace (world st1)))
                   st.

(** The program's own records are the same in both states. *)
Definition same_records (st st' : State) : Prop :=
  iso_manager st' = iso_manager st
  /\ backup_manager st' = backup_manager st
  /\ operation_log st' = operation_log st
  /\ current_operation st' = current_operation st
  /\ operation_progress st' = operation_progress st.

Definition failure_prefix (s : multi_stage) : string :=
  match s with
  | PrepareWindows | PrepareUnix => "Command failed: "
  | ConfigureWindows => "BCD command failed: "
  | RestoreWindows | RestoreUnix => "Restore command failed: "
  end.

(** The line [prepare_partition] writes to the operation log. *)
Definition prepared_entry (os : os_kind) (partition_identifier : string) : string :=
  match os with
  | Nt => "Prepared Windows partition " +:+ partition_identifier
  | Posix => "Prepared Unix partition " +:+ partition_identifier
  end.

(** The methods a run calls when every stage succeeds. *)
Definition stage_methods (preserve_data : bool) : list string :=
  ((if preserve_data then ["create_system_backup"] else [])
     ++ ["mount_iso"; "prepare_partition"; "install_from_mounted"; "configure_bootloader"])%list.

(** The directory [extract_os_info] mounts the image on, when started in
    [st]. *)
Definition detect_mount_point (st : State) : string :=
  path_join (os_name (world st)) (gettempdir (os_name (world st)))
            ("detorrent_os_detect_" +:+ tmp_at (world st) (tick (world st))).

(** An image of the right size and marker that the mount tool refuses. *)
Definition unmountable_state : State :=
  mkState (mkWorld Posix ∅ 0 (fun _ => Completed 32 "mount: wrong fs type") (fun _ => None)
                   (fun n => pretty n) (fun n => pretty n) (fun _ => ∅) [])
          (mkIsoManager [] "/tmp/detorrent_iso_0")
          (mkBackupManager [] ∅ ∅) [] None 0.

(** Every backup that was started is on file in [active_backups] under
    its id, and its dictionary says how it ended. *)
Definition settled (b : BackupManager) : Prop :=
  forall id ref,
    active_backups b !! id = Some ref ->
    exists info,
      objects b !! ref = Some info
      /\ bi_id info = id
      /\ (bi_status info = "completed" \/ bi_status info = "failed").

(** A backup directory on a POSIX host whose newest archive is a zip. *)
Definition mixed_backups : list (string * Z) :=
  [("notes.txt", 900); ("detorrent_backup_1.tar.gz", 100); ("detorrent_backup_2.zip", 200)].

Definition state_with_backup_dir : State :=
  mkState (mkWorld Posix {[ "/backups" ]} 0 (fun _ => Completed 0 EmptyString)
                   (fun _ => None) (fun n => pretty n) (fun n => pretty n) (fun _ => ∅) [])
          (mkIsoManager [] "/tmp/detorrent_iso_0")
          (mkBackupManager [] ∅ ∅) [] None 0.

(** * Theorems *)

(** ** Facts about [validate_iso_file] *)

Lemma bytes_eqb_eq (xs ys : list byte) : bytes_eqb xs ys = true <-> xs = ys.
Proof.
  revert ys. induction xs as [|x xs IH]; intros [|y ys]; simpl; try easy.
  rewrite andb_true_iff, IH. split.
  - intros [H ->]. apply Byte.byte_dec_bl in H. now subst.
  - intros [= -> ->]. split; [now apply Byte.byte_dec_lb | reflexivity].
Qed.

Lemma verify_iso_structure_marker disk iso_path data :
  disk !! iso_path = Some (Regular data) ->
  MiB <= Z.of_nat (length data) ->
  _verify_iso_structure disk iso_path = true <-> has_marker data.
Proof.
  intros Hfile Hsize. unfold _verify_iso_structure, has_marker, slice. rewrite Hfile.
  assert (Hlen : (length (firstn 2048 data) <? 2048)%nat = false).
  { apply Nat.ltb_ge. rewrite length_firstn. unfold MiB in Hsize. lia. }
  rewrite Hlen. change (5 - 0)%nat with 5%nat. change (4 - 0)%nat with 4%nat.
  rewrite !skipn_O.
  destruct (bytes_eqb (firstn 5 (firstn 2048 data)) CD001) eqn:E5.
  { apply bytes_eqb_eq in E5. split; [intros _; now left | reflexivity]. }
  destruct (bytes_eqb (firstn 4 (firstn 2048 data)) [x00; x00; x00; x00]) eqn:E4.
  { apply bytes_eqb_eq in E4. split; [intros _; now right | reflexivity]. }
  split; [discriminate|].
  intros [H|H]; apply bytes_eqb_eq in H; congruence.
Qed.

(** C3. For a regular file, [validate_iso_file] answers
    [File too small to be valid ISO] below 1 MiB, [Invalid ISO structure]
    from 1 MiB on when the first 2048 bytes carry neither marker (first 5
    bytes [CD001], or first 4 bytes zero), and it answers valid exactly
    when the size is at least 1 MiB and one of the two markers is there. *)
Theorem validate_iso_file_spec (disk : gmap string inode) (iso_path : string)
    (data : list byte) :
  disk !! iso_path = Some (Regular data) ->
  let size := Z.of_nat (length data) in
  (size < MiB ->
   validate_iso_file disk iso_path = Invalid "File too small to be valid ISO")
  /\ (MiB <= size -> ~ has_marker data ->
      validate_iso_file disk iso_path = Invalid "Invalid ISO structure")
  /\ ((exists sz, validate_iso_file disk iso_path = Valid sz)
      <-> MiB <= size /\ has_marker data)
  /\ (MiB <= size -> has_marker data -> validate_iso_file disk iso_path = Valid size).
Proof.
  intros Hfile size.
  assert (Hfold : 1024 * 1024 = MiB) by reflexivity.
  unfold validate_iso_file. rewrite Hfile. cbn [getsize]. fold size. rewrite Hfold.
  destruct (Z.ltb_spec size MiB) as [Hsmall|Hbig].
  - split; [reflexivity|]. split; [lia|]. split; [|lia].
    split; [intros [sz Hsz]; discriminate | lia].
  - pose proof (verify_iso_structure_marker disk iso_path data Hfile Hbig) as Hv.
    destruct (_verify_iso_structure disk iso_path); cbn [negb].
    + assert (Hm : has_marker data) by now apply Hv.
      split; [lia|]. split; [tauto|]. split; [|reflexivity].
      split; [tauto | eauto].
    + assert (Hm : ~ has_marker data) by (intros H; apply Hv in H; discriminate).
      split; [lia|]. split; [reflexivity|]. split; [|tauto].
      split; [intros [sz Hsz]; discriminate | tauto].
Qed.

Lemma validate_iso_file_spec_witness :
  validate_iso_file small_disk "tiny.iso" = Invalid "File too small to be valid ISO".
Proof.
  refine (proj1 (validate_iso_file_spec small_disk "tiny.iso" [x43; x44; x30; x30; x31] _) _).
  - reflexivity.
  - reflexivity.
Defined.

Example validate_iso9660 :
  validate_iso_file {[ "a.iso" := Regular iso9660_image ]} "a.iso" = Valid 1048581.
Proof. vm_compute. reflexivity. Qed.

Example validate_blank :
  validate_iso_file {[ "a.iso" := Regular blank_image ]} "a.iso" = Valid 1048576.
Proof. vm_compute. reflexivity. Qed.

Example validate_junk :
  validate_iso_file {[ "a.iso" := Regular junk_image ]} "a.iso" = Invalid "Invalid ISO structure".
Proof. vm_compute. reflexivity. Qed.


(** ** Facts about [os_detector] *)

Lemma startswith_refl s : startswith s s = true.
Proof. induction s as [|c s IH]; simpl; [reflexivity|]. now rewrite Ascii.eqb_refl. Qed.

Lemma contains_refl s : contains s s = true.
Proof. destruct s; simpl; [reflexivity|]. now rewrite Ascii.eqb_refl, startswith_refl. Qed.

Section MarkerFiles.
Context {engine : Regex}.

Lemma search_in_directory_plain os top tree pattern :
  _search_in_directory os top tree pattern false = true
  <-> exists file, In file (all_file_names os top tree)
                   /\ contains (lower pattern) (lower file) = true.
Proof.
  unfold _search_in_directory, all_file_names. rewrite existsb_exists. split.
  - intros [[[root dirs] fs] [Hin Hex]]. apply existsb_exists in Hex as [file [Hf Hc]].
    exists file. split; [|exact Hc]. apply in_flat_map. now exists (root, dirs, fs).
  - intros [file [Hin Hc]]. apply in_flat_map in Hin as [[[root dirs] fs] [Hin Hf]].
    exists (root, dirs, fs). split; [exact Hin|]. apply existsb_exists. now exists file.
Qed.

(** C6, as the code has it. The marker-file rule of a family holds exactly
    when some file name of the tree contains one of the family's marker
    file names, letter case aside; a name equal to a marker is enough,
    and so is [notbootmgr.bak] for the marker [bootmgr]. *)
Theorem marker_file_rule_is_substring (os : os_kind) (mount_point : string)
    (tree : list entry) (signatures : Signature) :
  (matches_files os mount_point tree signatures = true
   <-> exists file marker,
         In file (all_file_names os mount_point tree)
         /\ In marker (files signatures)
         /\ contains (lower marker) (lower file) = true)
  /\ (forall file, In file (all_file_names os mount_point tree) ->
                   In file (files signatures) ->
                   matches_files os mount_point tree signatures = true)
  /\ matches_files os mount_point decoy_tree windows_signatures = true.
Proof.
  assert (Hiff : matches_files os mount_point tree signatures = true
   <-> exists file marker,
         In file (all_file_names os mount_point tree)
         /\ In marker (files signatures)
         /\ contains (lower marker) (lower file) = true).
  { unfold matches_files. rewrite existsb_exists. split.
    - intros [marker [Hm Hs]]. apply search_in_directory_plain in Hs as [file [Hf Hc]].
      now exists file, marker.
    - intros [file [marker [Hf [Hm Hc]]]]. exists marker. split; [exact Hm|].
      apply search_in_directory_plain. now exists file. }
  split; [exact Hiff|]. split.
  - intros file Hf Hm. apply Hiff. exists file, file. auto using contains_refl.
  - destruct os; reflexivity.
Qed.

End MarkerFiles.

(** C6, as stated, fails: the only file of [decoy_tree] is
    [notbootmgr.bak], no marker file name of the Windows family is the
    name of a file there, and the marker-file rule accepts the family. *)
Lemma marker_file_rule_not_exact :
  ~ (matches_files (engine := word_search) Posix "/mnt" decoy_tree windows_signatures = true ->
     exists file, In file (all_file_names Posix "/mnt" decoy_tree)
                  /\ In file (files windows_signatures)).
Proof.
  intros H. destruct (H eq_refl) as [file [Hf Hm]].
  cbn in Hf, Hm. intuition (subst; discriminate).
Qed.

Example decoy_tree_detected :
  detected_type (engine := word_search) Posix "/mnt" decoy_tree = Some "windows".
Proof. vm_compute. reflexivity. Qed.

Lemma windows_version_no_type os mount_point tree :
  _extract_windows_version os mount_point tree !! "type" = None.
Proof.
  unfold _extract_windows_version.
  generalize (os_walk os mount_point tree).
  assert (H0 : (<["name" := "Windows"]> (<["version" := "Unknown"]> ∅) : gmap string string)
               !! "type" = None) by reflexivity.
  revert H0. generalize (<["name" := "Windows"]> (<["version" := "Unknown"]> ∅) : gmap string string).
  intros acc Hacc l. revert acc Hacc.
  induction l as [|[[root dirs] fs] l IH]; intros acc Hacc; simpl; [exact Hacc|].
  apply IH. destruct (List.find _ fs); [|exact Hacc].
  rewrite lookup_insert_ne; [exact Hacc | discriminate].
Qed.

Lemma linux_version_no_type tree : _extract_linux_version tree !! "type" = None.
Proof.
  unfold _extract_linux_version.
  destruct (lookup_path _ tree) as [[name content|name children]|]; try reflexivity.
  destruct (re_search_quoted "NAME=" content), (re_search_quoted "VERSION=" content);
    repeat (rewrite lookup_insert_ne by discriminate); reflexivity.
Qed.

Lemma macos_version_no_type os mount_point tree :
  _extract_macos_version os mount_point tree !! "type" = None.
Proof.
  unfold _extract_macos_version. destruct (lookup_path _ tree); [|reflexivity].
  rewrite lookup_insert_ne by discriminate. reflexivity.
Qed.

Lemma version_info_no_type os mount_point tree os_type :
  _extract_version_info os mount_point tree os_type !! "type" = None.
Proof.
  unfold _extract_version_info.
  destruct (String.eqb os_type "windows"); [apply windows_version_no_type|].
  destruct (String.eqb os_type "linux"); [apply linux_version_no_type|].
  destruct (String.eqb os_type "macos"); [apply macos_version_no_type|].
  reflexivity.
Qed.

Section Classification.
Context {engine : Regex}.

(** The loop answers with the first signature set that matches. *)
Lemma analyze_loop_first os mount_point tree sigs os_info i os_type signatures :
  sigs !! i = Some (os_type, signatures) ->
  _matches_signatures os mount_point tree signatures = true ->
  (forall j t s, (j < i)%nat -> sigs !! j = Some (t, s) ->
                 _matches_signatures os mount_point tree s = false) ->
  analyze_loop os mount_point tree sigs os_info !! "type" = Some os_type.
Proof.
  revert i. induction sigs as [|[t s] sigs IH]; intros i Hi Hm Hmin; [discriminate|].
  destruct i as [|i]; simpl in *.
  - injection Hi as -> ->. rewrite Hm.
    rewrite lookup_union_r by apply version_info_no_type.
    apply lookup_insert_eq.
  - rewrite (Hmin 0%nat t s) by (lia || reflexivity).
    apply (IH i Hi Hm). intros j t' s' Hj Hl. apply (Hmin (S j) t' s'); [lia | exact Hl].
Qed.

Lemma first_match os mount_point tree (sigs : list (string * Signature)) ia ta sa :
  sigs !! ia = Some (ta, sa) ->
  _matches_signatures os mount_point tree sa = true ->
  exists i t s,
    (i <= ia)%nat /\ sigs !! i = Some (t, s)
    /\ _matches_signatures os mount_point tree s = true
    /\ forall j t' s', (j < i)%nat -> sigs !! j = Some (t', s') ->
                       _matches_signatures os mount_point tree s' = false.
Proof.
  revert ia. induction sigs as [|[t s] sigs IH]; intros ia Hia Hm; [discriminate|].
  destruct (_matches_signatures os mount_point tree s) eqn:Hs.
  - exists 0%nat, t, s. repeat split; [lia | exact Hs | intros; lia].
  - destruct ia as [|ia]; simpl in Hia.
    + injection Hia as -> ->. congruence.
    + destruct (IH ia Hia Hm) as (i & t' & s' & Hle & Hl & Hmt & Hmin).
      exists (S i), t', s'. repeat split; [lia | exact Hl | exact Hmt |].
      intros [|j] t'' s'' Hj Hl'; simpl in Hl'.
      * injection Hl' as <- <-. exact Hs.
      * apply (Hmin j t'' s''); [lia | exact Hl'].
Qed.

(** C5. When the signature sets of two families both match a tree, the
    answer of [_analyze_mounted_iso] is the first family of
    [os_signatures] (windows, linux, macos) that matches: never the later
    of the two, and the earlier one unless a family before it matches as
    well. The answer is a function of the tree, so two runs agree. *)
Theorem classification_order_stable (os : os_kind) (mount_point : string)
    (tree : list entry) (ia ib : nat) (ta tb : string) (sa sb : Signature) :
  os_signatures !! ia = Some (ta, sa) ->
  os_signatures !! ib = Some (tb, sb) ->
  (ia < ib)%nat ->
  _matches_signatures os mount_point tree sa = true ->
  _matches_signatures os mount_point tree sb = true ->
  (exists i t s,
      (i <= ia)%nat /\ os_signatures !! i = Some (t, s)
      /\ _matches_signatures os mount_point tree s = true
      /\ (forall j t' s', (j < i)%nat -> os_signatures !! j = Some (t', s') ->
                          _matches_signatures os mount_point tree s' = false)
      /\ detected_type os mount_point tree = Some t
      /\ t <> tb)
  /\ ((forall j t' s', (j < ia)%nat -> os_signatures !! j = Some (t', s') ->
                       _matches_signatures os mount_point tree s' = false) ->
      detected_type os mount_point tree = Some ta)
  /\ (forall r1 r2, r1 = _analyze_mounted_iso os mount_point tree ->
                    r2 = _analyze_mounted_iso os mount_point tree -> r1 = r2).
Proof.
  intros Ha Hb Hlt Hma Hmb. split; [|split].
  - destruct (first_match os mount_point tree os_signatures ia ta sa Ha Hma)
      as (i & t & s & Hle & Hl & Hm & Hmin).
    exists i, t, s. repeat split; try assumption.
    + unfold detected_type, _analyze_mounted_iso.
      now apply (analyze_loop_first _ _ _ _ _ i t s).
    + intros ->.
      assert (Hnd : NoDup (os_signatures.*1)) by (apply (bool_decide_unpack _); vm_compute; reflexivity).
      assert (i = ib); [|lia].
      apply (NoDup_lookup _ _ _ tb Hnd); rewrite list_lookup_fmap.
      * now rewrite Hl.
      * now rewrite Hb.
  - intros Hmin. unfold detected_type, _analyze_mounted_iso.
    now apply (analyze_loop_first _ _ _ _ _ ia ta sa).
  - intros r1 r2 -> ->. reflexivity.
Qed.

End Classification.

Lemma classification_order_stable_witness :
  detected_type (engine := word_search) Posix "/mnt" mixed_tree = Some "windows".
Proof.
  destruct (classification_order_stable (engine := word_search) Posix "/mnt" mixed_tree 0 1
              "windows" "linux" windows_signatures linux_signatures) as [_ [H _]].
  - reflexivity.
  - reflexivity.
  - lia.
  - reflexivity.
  - reflexivity.
  - apply H. intros j t' s' Hj. lia.
Defined.


(** ** Facts about the dictionaries *)

Arguments dict_del : simpl never.
Arguments dict_set : simpl never.
Arguments path_join : simpl never.

Lemma assoc_dict_set k v d : assoc k (dict_set k v d) = Some v.
Proof.
  unfold dict_set. induction d as [|[k' v'] d IH]; simpl.
  - now rewrite String.eqb_refl.
  - destruct (String.eqb k k') eqn:E; simpl; rewrite ?String.eqb_refl, ?E; auto.
Qed.


Lemma dict_del_absent k d : assoc k d = None -> dict_del k d = d.
Proof.
  unfold dict_del. induction d as [|[k' v'] d IH]; simpl; [reflexivity|].
  destruct (String.eqb k k') eqn:E; [discriminate|]. simpl. intros H. now rewrite IH.
Qed.


Lemma below_refl os p : below os p p = true.
Proof. unfold below. now rewrite String.eqb_refl. Qed.

(** ** Facts about [mount_iso] and [unmount_iso] *)

(** What [rmtree] leaves of a path: it stays exactly when it was there
    and either lies outside the tree being deleted or resists. *)
Lemma elem_of_rmtree p q st :
  q ∈ paths (world (rmtree p st).2)
  <-> q ∈ paths (world st)
      /\ (below (os_name (world st)) p q = false
          \/ q ∈ busy_at (world st) (tick (world st))).
Proof. unfold rmtree, modify. cbn. rewrite elem_of_filter. tauto. Qed.




Example shared_mount_state_table :
  mount_table shared_mount_state = [("b.iso", "/tmp/detorrent_iso_0/mount_1")]
  /\ next_mount_point shared_mount_state = "/tmp/detorrent_iso_0/mount_1".
Proof. split; vm_compute; reflexivity. Qed.


(** ** The monad *)

Lemma try_except_returns (body : M Result) :
  returns (try_except body (fun e => ret (Failure e))).
Proof.
  intros st. unfold try_except, ret. destruct (body st) as [[r|e] st']; eauto.
Qed.

Lemma try_except_success (body : M Result) st fields st' :
  try_except body (fun e => ret (Failure e)) st = (Val (Success fields), st') ->
  body st = (Val (Success fields), st').
Proof.
  unfold try_except, ret. destruct (body st) as [[r|e] st1]; intros [= <- <-]; reflexivity.
Qed.

Lemma bind_val_inv {A B} (m : M A) (k : A -> M B) st b st' :
  bind m k st = (Val b, st') ->
  exists a st1, m st = (Val a, st1) /\ k a st1 = (Val b, st').
Proof.
  unfold bind. destruct (m st) as [[a|e] st1]; [eauto | discriminate].
Qed.

Lemma mkdtemp_val prefix st d st1 :
  mkdtemp prefix st = (Val d, st1) ->
  d = path_join (os_name (world st)) (gettempdir (os_name (world st)))
                (prefix +:+ tmp_at (world st) (tick (world st)))
  /\ trace (world st1) = trace (world st)
  /\ paths (world st1) = {[d]} ∪ paths (world st)
  /\ os_name (world st1) = os_name (world st).
Proof.
  unfold mkdtemp. destruct (io_at (world st) (tick (world st))); [discriminate|].
  intros [= <- <-]. repeat split.
Qed.

Lemma library_io_val st u st1 :
  library_io st = (Val u, st1) ->
  trace (world st1) = trace (world st)
  /\ paths (world st1) = paths (world st)
  /\ os_name (world st1) = os_name (world st).
Proof.
  unfold library_io. destruct (io_at (world st) (tick (world st))); [discriminate|].
  intros [= <- <-]. repeat split.
Qed.

Section Frames.
Variable R : State -> State -> Prop.
Hypothesis R_refl : forall st, R st st.
Hypothesis R_trans : forall a b c, R a b -> R b c -> R a c.

Lemma respects_ret {A} (a : A) : respects R (ret a).
Proof. intros st. apply R_refl. Qed.

Lemma respects_raise {A} msg : respects R (@raise A msg).
Proof. intros st. apply R_refl. Qed.

Lemma respects_get : respects R get.
Proof. intros st. apply R_refl. Qed.

Lemma respects_path_exists p : respects R (path_exists p).
Proof. intros st. apply R_refl. Qed.

Lemma respects_modify f : (forall st, R st (f st)) -> respects R (modify f).
Proof. intros H st. apply H. Qed.

Lemma respects_bind {A B} (m : M A) (k : A -> M B) :
  respects R m -> (forall a, respects R (k a)) -> respects R (bind m k).
Proof.
  intros Hm Hk st. unfold bind. specialize (Hm st).
  destruct (m st) as [[a|e] st1]; simpl in *; [|exact Hm].
  eapply R_trans; [exact Hm | apply Hk].
Qed.

Lemma respects_try_except {A} (body : M A) handler :
  respects R body -> (forall e, respects R (handler e)) ->
  respects R (try_except body handler).
Proof.
  intros Hb Hh st. unfold try_except. specialize (Hb st).
  destruct (body st) as [[a|e] st1]; simpl in *; [exact Hb|].
  eapply R_trans; [exact Hb | apply Hh].
Qed.

Lemma respects_getitem r k : respects R (getitem r k).
Proof.
  destruct r as [fields|e]; simpl; [|apply respects_raise].
  destruct (assoc k fields); [apply respects_ret | apply respects_raise].
Qed.

Lemma respects_run_each mk rejected failure commands rest :
  (forall c, respects R (subprocess_run c)) -> respects R rest ->
  respects R (run_each mk rejected failure commands rest).
Proof.
  intros Hrun Hrest. induction commands as [|c cs IH]; simpl; [exact Hrest|].
  apply respects_bind; [apply Hrun|]. intros result.
  destruct (rejected result.1); [apply respects_ret | exact IH].
Qed.

Lemma respects_find_first_script mount_point scripts :
  respects R (find_first_script mount_point scripts).
Proof.
  induction scripts as [|s rest IH]; simpl; [apply respects_ret|].
  apply respects_bind; [apply respects_get|]. intros st.
  apply respects_bind; [apply respects_path_exists|]. intros [|];
    [apply respects_ret | exact IH].
Qed.
End Frames.

(** Events are only ever appended. *)
Lemma only_runs_refl st : only_runs st st.
Proof. exists []. split; [now rewrite app_nil_r | constructor]. Qed.

Lemma only_runs_trans a b c : only_runs a b -> only_runs b c -> only_runs a c.
Proof.
  intros (e1 & H1 & F1) (e2 & H2 & F2). exists (e1 ++ e2)%list. split.
  - now rewrite H2, H1, app_assoc.
  - now apply Forall_app.
Qed.

Lemma same_iso_refl st : same_iso st st.
Proof. reflexivity. Qed.

Lemma same_iso_trans a b c : same_iso a b -> same_iso b c -> same_iso a c.
Proof. unfold same_iso. congruence. Qed.

Lemma only_runs_subprocess_run c : respects only_runs (subprocess_run c).
Proof.
  intros st. unfold subprocess_run.
  exists [Ran c (proc_at (world st) (tick (world st)))].
  destruct (proc_at (world st) (tick (world st))) eqn:E; simpl; rewrite ?E;
    split; try reflexivity; repeat constructor.
Qed.

Lemma only_runs_silent (f : State -> State) :
  (forall st, trace (world (f st)) = trace (world st)) ->
  forall st, only_runs st (f st).
Proof. intros H st. exists []. rewrite H, app_nil_r. split; [reflexivity | constructor]. Qed.

Lemma only_runs_makedirs p : respects only_runs (makedirs p).
Proof.
  intros st. unfold makedirs. exists []. rewrite app_nil_r.
  destruct (io_at (world st) (tick (world st))); simpl; split; (reflexivity || constructor).
Qed.

Lemma only_runs_mkdtemp p : respects only_runs (mkdtemp p).
Proof.
  intros st. unfold mkdtemp. exists []. rewrite app_nil_r.
  destruct (io_at (world st) (tick (world st))); simpl; split; (reflexivity || constructor).
Qed.

Lemma only_runs_library_io : respects only_runs library_io.
Proof.
  intros st. unfold library_io. exists []. rewrite app_nil_r.
  destruct (io_at (world st) (tick (world st))); simpl; split; (reflexivity || constructor).
Qed.

Lemma only_runs_now : respects only_runs now.
Proof. intros st. exists []. rewrite app_nil_r. split; [reflexivity | constructor]. Qed.

Lemma only_runs_rmtree p : respects only_runs (rmtree p).
Proof. intros st. exists []. rewrite app_nil_r. split; [reflexivity | constructor]. Qed.

Lemma only_runs_new_object info : respects only_runs (new_object info).
Proof. intros st. exists []. rewrite app_nil_r. split; [reflexivity | constructor]. Qed.

Lemma only_runs_with_iso f : respects only_runs (modify (with_iso f)).
Proof. intros st. exists []. rewrite app_nil_r. split; [reflexivity | constructor]. Qed.

Lemma only_runs_with_backup f : respects only_runs (modify (with_backup f)).
Proof. intros st. exists []. rewrite app_nil_r. split; [reflexivity | constructor]. Qed.

Lemma only_runs_with_operation_log f : respects only_runs (modify (with_operation_log f)).
Proof. intros st. exists []. rewrite app_nil_r. split; [reflexivity | constructor]. Qed.

Lemma only_runs_set_paths f :
  respects only_runs (modify (with_world (fun w => set_paths (f w) w))).
Proof. intros st. exists []. rewrite app_nil_r. split; [reflexivity | constructor]. Qed.

Create HintDb frames.

#[export] Hint Resolve only_runs_refl only_runs_trans same_iso_refl same_iso_trans : frames.
#[export] Hint Resolve respects_ret respects_raise respects_get respects_path_exists
  respects_getitem respects_find_first_script : frames.
#[export] Hint Resolve only_runs_subprocess_run only_runs_makedirs only_runs_mkdtemp
  only_runs_library_io only_runs_now only_runs_rmtree only_runs_new_object
  only_runs_with_iso only_runs_with_backup only_runs_with_operation_log
  only_runs_set_paths : frames.

(** One step of a frame proof: close the goal, or split the computation
    at its head. *)
Ltac frame_step :=
  first
    [ solve [eauto with frames]
    | match goal with
      | |- respects _ (traced _ _ _) => unfold traced
      | |- respects _ (bind _ _) => apply respects_bind; [eauto with frames | | intros ?]
      | |- respects _ (try_except _ _) =>
          apply respects_try_except; [eauto with frames | | intros ?]
      | |- respects _ (run_each _ _ _ _ _) =>
          apply respects_run_each; [eauto with frames | eauto with frames | | ]
      | |- respects _ (if ?b then _ else _) => destruct b
      | |- respects _ (match ?x with _ => _ end) => destruct x
      | |- forall _, _ => intros ?
      end ].

Ltac frame := repeat frame_step.


(** ** Stages made of several commands *)

Lemma run_each_success mk rejected failure commands rest st fields st' :
  (forall e, succeeded (failure e) = false) ->
  run_each mk rejected failure commands rest st = (Val (Success fields), st') ->
  exists evs st1,
    trace (world st1) = (trace (world st) ++ evs)%list
    /\ length evs = length commands
    /\ Forall (fun e => exists c rc err, e = Ran c (Completed rc err) /\ rejected rc = false) evs
    /\ rest st1 = (Val (Success fields), st').
Proof.
  intros Hfail. revert st. induction commands as [|c cs IH]; intros st Hrun; simpl in Hrun.
  - exists [], st. rewrite app_nil_r. repeat split; [constructor | exact Hrun].
  - unfold bind, subprocess_run in Hrun.
    destruct (proc_at (world st) (tick (world st))) as [rc err|msg] eqn:E; [|discriminate].
    simpl in Hrun. destruct (rejected rc) eqn:Hrc.
    + unfold ret in Hrun. injection Hrun as Hr _. specialize (Hfail err).
      rewrite Hr in Hfail. discriminate.
    + apply IH in Hrun as (evs & st1 & Ht & Hl & Hall & Hrest). simpl in Ht.
      exists (Ran (mk c) (Completed rc err) :: evs), st1. repeat split.
      * rewrite Ht, E, <- app_assoc. reflexivity.
      * simpl. now rewrite Hl.
      * constructor; [eauto | exact Hall].
      * exact Hrest.
Qed.

Lemma status_zero rc : negb (rc =? 0) = false -> rc = 0.
Proof. intros H. apply negb_false_iff, Z.eqb_eq in H. exact H. Qed.

Lemma status_zero_or_one rc : negb ((rc =? 0) || (rc =? 1)) = false -> rc = 0 \/ rc = 1.
Proof. intros H. apply negb_false_iff, orb_true_iff in H. rewrite !Z.eqb_eq in H. exact H. Qed.

(** C8. A stage made of several commands that reports success has run
    every command of its sequence, and each of them exited with an
    accepted status: 0 everywhere, or else 1 for the robocopy commands of
    the Windows restore. Status 1 from every robocopy command does let
    the Windows restore succeed, and the same status from cp makes the
    Unix restore fail. *)
Theorem multi_command_stage_statuses (s : multi_stage) (arg : string) (st : State)
    (fields : list (string * string)) (st' : State) :
  stage_fn s arg st = (Val (Success fields), st') ->
  (exists evs,
      trace (world st') = (trace (world st) ++ evs)%list
      /\ length evs = stage_length s
      /\ Forall (ran_accepted s) evs)
  /\ (_restore_windows_backup "C:\backups\b.zip" (state_exiting Nt 1)).1
     = Val (Success [("message", "Windows backup restored successfully")])
  /\ (_restore_unix_backup "/backups/b.tar.gz" (state_exiting Posix 1)).1
     = Val (Failure "Restore command failed: warning").
Proof.
  intros Hrun. split; [|split; vm_compute; reflexivity].
  assert (Hwrap : forall rejected evs,
             (forall rc, rejected rc = false -> accepted s rc) ->
             Forall (fun e => exists c rc err,
                        e = Ran c (Completed rc err) /\ rejected rc = false) evs ->
             Forall (ran_accepted s) evs).
  { intros rejected evs Hacc Hall. eapply Forall_impl; [exact Hall|].
    intros e (c & rc & err & -> & Hrc). exists c, rc, err. auto. }
  destruct s; simpl in Hrun; apply try_except_success in Hrun.
  - apply run_each_success in Hrun as (evs & st1 & Ht & Hl & Hall & Hrest); [|reflexivity].
    exists evs. injection Hrest as _ <-.
    repeat split; [exact Ht | exact Hl | eapply Hwrap; [apply status_zero | exact Hall]].
  - apply run_each_success in Hrun as (evs & st1 & Ht & Hl & Hall & Hrest); [|reflexivity].
    exists evs. injection Hrest as _ <-.
    repeat split; [exact Ht | exact Hl | eapply Hwrap; [apply status_zero | exact Hall]].
  - apply run_each_success in Hrun as (evs & st1 & Ht & Hl & Hall & Hrest); [|reflexivity].
    exists evs. injection Hrest as _ <-.
    repeat split; [exact Ht | exact Hl | eapply Hwrap; [apply status_zero | exact Hall]].
  - destruct (negb (endswith ".zip" arg)); [discriminate|].
    apply bind_val_inv in Hrun as (d & sa & Hd & Hrun).
    apply bind_val_inv in Hrun as (u & sb & Hu & Hrun).
    apply mkdtemp_val in Hd as (_ & Hta & _). apply library_io_val in Hu as (Htb & _).
    apply run_each_success in Hrun as (evs & st1 & Ht & Hl & Hall & Hrest); [|reflexivity].
    exists evs. injection Hrest as _ <-. rewrite Htb, Hta in Ht.
    repeat split; [exact Ht | exact Hl | eapply Hwrap; [apply status_zero_or_one | exact Hall]].
  - destruct (negb (endswith ".tar.gz" arg)); [discriminate|].
    apply bind_val_inv in Hrun as (d & sa & Hd & Hrun).
    apply bind_val_inv in Hrun as (u & sb & Hu & Hrun).
    apply mkdtemp_val in Hd as (_ & Hta & _). apply library_io_val in Hu as (Htb & _).
    apply run_each_success in Hrun as (evs & st1 & Ht & Hl & Hall & Hrest); [|reflexivity].
    exists evs. injection Hrest as _ <-. rewrite Htb, Hta in Ht.
    repeat split; [exact Ht | exact Hl | eapply Hwrap; [apply status_zero | exact Hall]].
Qed.

Lemma multi_command_stage_statuses_witness :
  exists evs,
    trace (world (_restore_windows_backup "C:\backups\b.zip" (state_exiting Nt 1)).2)
    = ([] ++ evs)%list
    /\ length evs = 3%nat
    /\ Forall (ran_accepted RestoreWindows) evs.
Proof.
  refine (proj1 (multi_command_stage_statuses RestoreWindows "C:\backups\b.zip"
                   (state_exiting Nt 1)
                   [("message", "Windows backup restored successfully")] _ _)).
  vm_compute. reflexivity.
Defined.

(** ** Restoring a backup *)

(** C7, where the code departs from it. The first copy command of the
    restore fails: the restore stops with the diagnostic of that command,
    and the directory it extracted to is still there when it returns, on
    the Unix path and on the Windows path alike. After a restore that
    succeeds the directory is gone. *)
Theorem restore_failure_keeps_temp_dir :
  (let run := _restore_unix_backup "/backups/b.tar.gz" (state_failing_copy Posix 1) in
   run.1 = Val (Failure "Restore command failed: access denied")
   /\ restore_temp_dir (state_failing_copy Posix 1) = "/tmp/detorrent_restore_0"
   /\ "/tmp/detorrent_restore_0" ∈ paths (world run.2))
  /\ (let run := _restore_windows_backup "C:\backups\b.zip" (state_failing_copy Nt 8) in
      run.1 = Val (Failure "Restore command failed: access denied")
      /\ restore_temp_dir (state_failing_copy Nt 8) = "C:\Temp\detorrent_restore_0"
      /\ "C:\Temp\detorrent_restore_0" ∈ paths (world run.2))
  /\ (let run := _restore_unix_backup "/backups/b.tar.gz" (state_exiting Posix 0) in
      run.1 = Val (Success [("message", "Unix backup restored successfully")])
      /\ "/tmp/detorrent_restore_0" ∉ paths (world run.2)).
Proof.
  split; [|split]; cbv zeta.
  - split; [vm_compute; reflexivity|]. split; [vm_compute; reflexivity|].
    apply (bool_decide_unpack _). vm_compute. reflexivity.
  - split; [vm_compute; reflexivity|]. split; [vm_compute; reflexivity|].
    apply (bool_decide_unpack _). vm_compute. reflexivity.
  - split; [vm_compute; reflexivity|].
    apply (bool_decide_unpack _). vm_compute. reflexivity.
Qed.


(** ** Facts about the backup catalog *)

Lemma create_unix_backup_frame backup_path backup_id st :
  exists r st',
    _create_unix_backup backup_path backup_id st = (Val r, st')
    /\ backup_manager st' = backup_manager st.
Proof.
  unfold _create_unix_backup, write_archive.
  unfold try_except, bind, get, library_io, modify, ret.
  cbn. destruct (io_at (world st) (tick (world st))); cbn;
    eexists _, _; split; reflexivity.
Qed.

Lemma create_windows_backup_frame backup_path backup_id st :
  exists r st',
    _create_windows_backup backup_path backup_id st = (Val r, st')
    /\ backup_manager st' = backup_manager st.
Proof.
  unfold _create_windows_backup, write_archive.
  unfold try_except, bind, get, library_io, modify, ret.
  cbn. destruct (io_at (world st) (tick (world st))); cbn;
    eexists _, _; split; reflexivity.
Qed.

Arguments _create_unix_backup : simpl never.
Arguments _create_windows_backup : simpl never.

(** Filing a new dictionary keeps the catalog in order, whatever is
    written to its status afterwards. *)
Lemma catalog_ok_new_object b id info status :
  catalog_ok b ->
  catalog_ok
    (set_objects (<[length (objects b) := mkBackupInfo (bi_id info) (bi_path info)
                                            (bi_timestamp info) status]>
                    (objects b ++ [info])%list)
       (set_active_backups (<[id := length (objects b)]> (active_backups b)) b)).
Proof.
  intros Hok id' ref Hl. simpl in Hl. destruct (Hok id' ref Hl) as [(i & Hi & Hs & Hid) Ha].
  split.
  - exists i. simpl. split; [|auto].
    pose proof (lookup_lt_Some _ _ _ Hi) as Hlt.
    rewrite list_lookup_insert_ne by lia. now rewrite lookup_app_l.
  - simpl. destruct (decide (id = id')) as [->|Hne].
    + rewrite lookup_insert_eq. eauto.
    + now rewrite lookup_insert_ne.
Qed.

Lemma catalog_ok_completed b id info :
  catalog_ok b -> bi_id info = id ->
  catalog_ok
    (set_backup_metadata (<[id := length (objects b)]> (backup_metadata b))
       (set_objects (<[length (objects b) := mkBackupInfo (bi_id info) (bi_path info)
                                               (bi_timestamp info) "completed"]>
                       (objects b ++ [info])%list)
          (set_active_backups (<[id := length (objects b)]> (active_backups b)) b))).
Proof.
  intros Hok Hid id' ref Hl. simpl in Hl. destruct (decide (id = id')) as [<-|Hne].
  - rewrite lookup_insert_eq in Hl. injection Hl as <-. simpl. split.
    + eexists. split.
      * apply list_lookup_insert_eq. rewrite length_app. simpl. lia.
      * split; [reflexivity | exact Hid].
    + rewrite lookup_insert_eq. eauto.
  - rewrite lookup_insert_ne in Hl by exact Hne.
    apply (catalog_ok_new_object b id info "completed" Hok id' ref). exact Hl.
Qed.

Lemma create_system_backup_catalog backup_path st :
  catalog_ok (backup_manager st) ->
  exists r st',
    create_system_backup backup_path st = (Val r, st')
    /\ catalog_ok (backup_manager st')
    /\ match r with
       | Failure _ => backup_metadata (backup_manager st') = backup_metadata (backup_manager st)
       | Success fields =>
           exists id ref,
             fields = [("backup_id", id); ("path", backup_path)]
             /\ backup_metadata (backup_manager st')
                = <[id := ref]> (backup_metadata (backup_manager st))
       end.
Proof.
  intros Hok.
  unfold create_system_backup, traced, _generate_backup_id, set_status, log.
  unfold try_except, bind, modify, get, ret, path_exists, now, new_object, makedirs.
  cbn.
  destruct (bool_decide (backup_path ∈ paths (world st))); cbn.
  - match goal with
    | |- context [match os_name ?w with Nt => ?a | Posix => ?b end ?s] =>
        assert (Hrun : exists r s', (match os_name w with Nt => a | Posix => b end) s = (Val r, s')
                                    /\ backup_manager s' = backup_manager s);
        [ destruct (os_name w);
          [apply create_windows_backup_frame | apply create_unix_backup_frame] |]
    end.
    destruct Hrun as (r & s' & Hrun & Hbm). rewrite Hrun. destruct r as [fields|error]; cbn.
    + eexists _, _. split; [reflexivity|]. cbn. rewrite Hbm. cbn.
      rewrite list_lookup_middle by reflexivity. cbn. split.
      * apply (catalog_ok_completed (backup_manager st) _
                 (mkBackupInfo _ backup_path _ "in_progress") Hok). reflexivity.
      * eexists _, _. split; reflexivity.
    + eexists _, _. split; [reflexivity|]. cbn. rewrite Hbm. cbn.
      rewrite list_lookup_middle by reflexivity. cbn. split; [|reflexivity].
      apply (catalog_ok_new_object (backup_manager st) _
               (mkBackupInfo _ backup_path _ "in_progress") "failed" Hok).
  - destruct (io_at (world st) (tick (world st))); cbn.
    { eexists _, _. split; [reflexivity|]. split; [exact Hok | reflexivity]. }
    match goal with
    | |- context [match os_name ?w with Nt => ?a | Posix => ?b end ?s] =>
        assert (Hrun : exists r s', (match os_name w with Nt => a | Posix => b end) s = (Val r, s')
                                    /\ backup_manager s' = backup_manager s);
        [ destruct (os_name w);
          [apply create_windows_backup_frame | apply create_unix_backup_frame] |]
    end.
    destruct Hrun as (r & s' & Hrun & Hbm). rewrite Hrun. destruct r as [fields|error]; cbn.
    + eexists _, _. split; [reflexivity|]. cbn. rewrite Hbm. cbn.
      rewrite list_lookup_middle by reflexivity. cbn. split.
      * apply (catalog_ok_completed (backup_manager st) _
                 (mkBackupInfo _ backup_path _ "in_progress") Hok). reflexivity.
      * eexists _, _. split; reflexivity.
    + eexists _, _. split; [reflexivity|]. cbn. rewrite Hbm. cbn.
      rewrite list_lookup_middle by reflexivity. cbn. split; [|reflexivity].
      apply (catalog_ok_new_object (backup_manager st) _
               (mkBackupInfo _ backup_path _ "in_progress") "failed" Hok).
Qed.

Lemma run_backups_catalog backup_paths st :
  catalog_ok (backup_manager st) ->
  exists rs st',
    run_backups backup_paths st = (Val rs, st')
    /\ catalog_ok (backup_manager st')
    /\ forall id,
         is_Some (backup_metadata (backup_manager st') !! id)
         <-> is_Some (backup_metadata (backup_manager st) !! id)
             \/ exists r, In r rs /\ reported_id r = Some id.
Proof.
  revert st. induction backup_paths as [|p ps IH]; intros st Hok.
  - exists [], st. split; [reflexivity|]. split; [exact Hok|].
    intros id. split; [auto | intros [H|(r & [] & _)]; exact H].
  - destruct (create_system_backup_catalog p st Hok) as (r & st1 & Hrun & Hok1 & Hr).
    destruct (IH st1 Hok1) as (rs & st' & Hruns & Hok' & Hids).
    exists (r :: rs), st'. split; [|split; [exact Hok'|]].
    { simpl. unfold bind. rewrite Hrun, Hruns. reflexivity. }
    intros id. rewrite Hids. destruct r as [fields|error].
    + destruct Hr as (id0 & ref & -> & Hmeta). rewrite Hmeta. split.
      * intros [Hin|(r & Hin & Hid)].
        -- destruct (decide (id0 = id)) as [->|Hne].
           ++ right. eexists. split; [left; reflexivity | reflexivity].
           ++ rewrite lookup_insert_ne in Hin by exact Hne. now left.
        -- right. exists r. split; [now right | exact Hid].
      * intros [Hin|(r & [<-|Hin] & Hid)].
        -- left. destruct (decide (id0 = id)) as [->|Hne].
           ++ rewrite lookup_insert_eq. eauto.
           ++ now rewrite lookup_insert_ne.
        -- injection Hid as ->. left. rewrite lookup_insert_eq. eauto.
        -- right. eauto.
    + rewrite Hr. split.
      * intros [Hin|(r & Hin & Hid)]; [now left | right; exists r; split; [now right | exact Hid]].
      * intros [Hin|(r & [<-|Hin] & Hid)]; [now left | discriminate | right; eauto].
Qed.

Lemma insert_last {A} (l : list A) (x y : A) :
  <[length l := y]> (l ++ [x])%list = (l ++ [y])%list.
Proof. induction l as [|a l IH]; simpl; [reflexivity | now rewrite IH]. Qed.

Lemma create_system_backup_call backup_path st :
  exists r st',
    create_system_backup backup_path st = (Val r, st')
    /\ stamp_at (world st') = stamp_at (world st)
    /\ io_at (world st') = io_at (world st)
    /\ (tick (world st) <= tick (world st'))%nat
    /\ ((forall n, io_at (world st) n = None) -> succeeded r = true)
    /\ ((succeeded r = false /\ backup_manager st' = backup_manager st)
        \/ exists t ts status,
             (tick (world st) <= t < tick (world st'))%nat
             /\ objects (backup_manager st')
                = (objects (backup_manager st)
                   ++ [mkBackupInfo (backup_id_at st t) backup_path ts status])%list
             /\ active_backups (backup_manager st')
                = <[backup_id_at st t := length (objects (backup_manager st))]>
                    (active_backups (backup_manager st))
             /\ ((r = Success [("backup_id", backup_id_at st t); ("path", backup_path)]
                  /\ status = "completed"
                  /\ backup_metadata (backup_manager st')
                     = <[backup_id_at st t := length (objects (backup_manager st))]>
                         (backup_metadata (backup_manager st)))
                 \/ (succeeded r = false
                     /\ status = "failed"
                     /\ backup_metadata (backup_manager st')
                        = backup_metadata (backup_manager st)))).
Proof.
  unfold create_system_backup, traced, _generate_backup_id, set_status, log, backup_id_at.
  unfold _create_windows_backup, _create_unix_backup, write_archive, library_io.
  unfold try_except, bind, modify, get, ret, path_exists, now, new_object, makedirs.
  cbn.
  destruct (bool_decide (backup_path ∈ paths (world st))); cbn.
  - destruct (os_name (world st)); cbn;
      destruct (io_at (world st) (S (S (tick (world st))))) eqn:Hio; cbn;
      eexists _, _; (split; [reflexivity|]); cbn;
      rewrite !list_lookup_middle by reflexivity; cbn;
      (split; [reflexivity|]); (split; [reflexivity|]); (split; [lia|]);
      (split; [first [reflexivity | intros Hall; rewrite Hall in Hio; discriminate]|]);
      right; exists (tick (world st)), (stamp_at (world st) (S (tick (world st))));
      eexists; (split; [lia|]);
      (split; [apply insert_last|]); (split; [reflexivity|]);
      first [left; repeat split; reflexivity | right; repeat split; reflexivity].
  - destruct (io_at (world st) (tick (world st))) eqn:Hmk; cbn.
    { eexists _, _. split; [reflexivity|]. cbn.
      split; [reflexivity|]. split; [reflexivity|]. split; [lia|].
      split; [intros Hall; rewrite Hall in Hmk; discriminate|].
      left. split; reflexivity. }
    destruct (os_name (world st)); cbn;
      destruct (io_at (world st) (S (S (S (tick (world st)))))) eqn:Hio; cbn;
      eexists _, _; (split; [reflexivity|]); cbn;
      rewrite !list_lookup_middle by reflexivity; cbn;
      (split; [reflexivity|]); (split; [reflexivity|]); (split; [lia|]);
      (split; [first [reflexivity | intros Hall; rewrite Hall in Hio; discriminate]|]);
      right; exists (S (tick (world st))), (stamp_at (world st) (S (S (tick (world st)))));
      eexists; (split; [lia|]);
      (split; [apply insert_last|]); (split; [reflexivity|]);
      first [left; repeat split; reflexivity | right; repeat split; reflexivity].
Qed.

Lemma backup_id_at_inj st t t' :
  (forall n m, stamp_at (world st) n = stamp_at (world st) m -> n = m) ->
  backup_id_at st t = backup_id_at st t' -> t = t'.
Proof.
  intros Hinj Heq. apply Hinj. unfold backup_id_at in Heq.
  now apply (inj (String.app _)) in Heq.
Qed.

Lemma unrecorded_of_invariants st :
  catalog_ok (backup_manager st) -> ids_in_step st -> failed_backups_unrecorded st.
Proof.
  intros Hok [_ Hsub] id ref info Ha Hi Hs. unfold get_backup_metadata.
  destruct (backup_metadata (backup_manager st) !! id) as [ref'|] eqn:Hm; [|reflexivity].
  pose proof (Hsub id ref' Hm) as Ha'. rewrite Ha in Ha'. injection Ha' as <-.
  destruct (Hok id ref Hm) as [(info' & Hi' & Hs' & _) _].
  rewrite Hi in Hi'. injection Hi' as <-. rewrite Hs in Hs'. discriminate.
Qed.

Lemma create_system_backup_ids backup_path st r st' :
  (forall n m, stamp_at (world st) n = stamp_at (world st) m -> n = m) ->
  create_system_backup backup_path st = (Val r, st') ->
  ids_in_step st -> ids_in_step st'.
Proof.
  intros Hinj Hrun [Hdrawn Hsub].
  destruct (create_system_backup_call backup_path st)
    as (r0 & st0 & Hrun0 & Hstamp & _ & Htick & _ & Hcases).
  rewrite Hrun in Hrun0. injection Hrun0 as <- <-.
  assert (Hid : forall t, backup_id_at st' t = backup_id_at st t)
    by (intros t; unfold backup_id_at; now rewrite Hstamp).
  destruct Hcases as [[_ Hb]|(t & ts & status & Ht & _ & Hact & Hmeta)].
  { unfold ids_in_step. rewrite Hb. split; [|exact Hsub].
    intros id ref Ha. destruct (Hdrawn id ref Ha) as (t & Ht & ->).
    exists t. split; [lia | now rewrite Hid]. }
  assert (Hfresh : active_backups (backup_manager st) !! backup_id_at st t = None).
  { destruct (active_backups (backup_manager st) !! backup_id_at st t) as [ref|] eqn:Ha;
      [|reflexivity].
    destruct (Hdrawn _ ref Ha) as (t' & Ht' & Heq).
    apply (backup_id_at_inj st _ _ Hinj) in Heq. lia. }
  split.
  - intros id ref. rewrite Hact. destruct (decide (backup_id_at st t = id)) as [<-|Hne].
    + intros _. exists t. split; [lia | now rewrite Hid].
    + rewrite lookup_insert_ne by exact Hne. intros Ha.
      destruct (Hdrawn id ref Ha) as (t' & Ht' & ->). exists t'. split; [lia | now rewrite Hid].
  - intros id ref. rewrite Hact.
    destruct Hmeta as [(_ & _ & ->)|(_ & _ & ->)].
    + destruct (decide (backup_id_at st t = id)) as [<-|Hne].
      * now rewrite !lookup_insert_eq.
      * rewrite !lookup_insert_ne by exact Hne. apply Hsub.
    + intros Hm. pose proof (Hsub id ref Hm) as Ha.
      destruct (decide (backup_id_at st t = id)) as [<-|Hne]; [congruence|].
      now rewrite lookup_insert_ne.
Qed.

Lemma run_backups_calls backup_paths st :
  exists rs st',
    run_backups backup_paths st = (Val rs, st')
    /\ Forall2 reports backup_paths rs
    /\ ((forall n, io_at (world st) n = None) -> Forall (fun r => succeeded r = true) rs)
    /\ ((forall n m, stamp_at (world st) n = stamp_at (world st) m -> n = m) ->
        ids_in_step st -> ids_in_step st').
Proof.
  revert st. induction backup_paths as [|p ps IH]; intros st.
  - exists [], st. split; [reflexivity|]. split; [constructor|]. split; [constructor | auto].
  - destruct (create_system_backup_call p st)
      as (r & st1 & Hrun & Hstamp & Hio & _ & Hlive & Hcases).
    destruct (IH st1) as (rs & st' & Hruns & Hrep & Hlives & Hids).
    exists (r :: rs), st'. split; [|split; [|split]].
    + simpl. unfold bind. rewrite Hrun, Hruns. reflexivity.
    + constructor; [|exact Hrep]. intros Hs.
      destruct Hcases as [[Hf _]|(t & ts & status & _ & _ & _ & [(-> & _)|(Hf & _)])];
        [congruence | eauto | congruence].
    + intros Hall. constructor; [now apply Hlive|].
      apply Hlives. intros n. rewrite Hio. apply Hall.
    + intros Hinj Hin. apply Hids.
      * intros n m. rewrite Hstamp. apply Hinj.
      * eapply create_system_backup_ids; eassumption.
Qed.

(** C10, as the code has it. After any sequence of [create_system_backup]
    calls on a manager whose catalog started empty: a call that succeeds
    answers with an id and its path, and every call succeeds when no
    library call raises; [get_backup_metadata] has a record for an id
    exactly when a call that reported that id succeeded; the record it
    gives says [completed] and carries that id; for an id that no call
    used it gives the empty dictionary. An id is the time of the call to
    the second: the id of a failed backup gets the empty dictionary
    provided no two ids were drawn within the same second. *)
Theorem backup_catalog_completed_only (backup_paths : list string) (st : State) :
  backup_metadata (backup_manager st) = ∅ ->
  exists rs st',
    run_backups backup_paths st = (Val rs, st')
    /\ Forall2 reports backup_paths rs
    /\ ((forall n, io_at (world st) n = None) -> Forall (fun r => succeeded r = true) rs)
    /\ (forall id,
          (is_Some (get_backup_metadata id st')
           <-> exists r, In r rs /\ succeeded r = true /\ reported_id r = Some id)
          /\ (forall info, get_backup_metadata id st' = Some info ->
                           bi_status info = "completed" /\ bi_id info = id)
          /\ (active_backups (backup_manager st') !! id = None ->
              get_backup_metadata id st' = None))
    /\ (active_backups (backup_manager st) = ∅ ->
        (forall n m, stamp_at (world st) n = stamp_at (world st) m -> n = m) ->
        failed_backups_unrecorded st').
Proof.
  intros Hempty.
  assert (Hok : catalog_ok (backup_manager st)).
  { intros id ref Hl. rewrite Hempty, lookup_empty in Hl. discriminate. }
  destruct (run_backups_catalog backup_paths st Hok) as (rs & st' & Hrun & Hok' & Hids).
  destruct (run_backups_calls backup_paths st) as (rs0 & st0 & Hrun0 & Hrep & Hlive & Hstep).
  rewrite Hrun in Hrun0. injection Hrun0 as <- <-.
  exists rs, st'. split; [exact Hrun|]. split; [exact Hrep|]. split; [exact Hlive|]. split.
  - intros id.
    assert (Hget : is_Some (get_backup_metadata id st')
                   <-> is_Some (backup_metadata (backup_manager st') !! id)).
    { unfold get_backup_metadata. split.
      - destruct (backup_metadata (backup_manager st') !! id); [eauto | intros [? [=]]].
      - intros [ref Hl]. rewrite Hl. destruct (Hok' id ref Hl) as [(info & Hi & _) _].
        rewrite Hi. eauto. }
    split; [|split].
    + rewrite Hget, Hids, Hempty, lookup_empty. split.
      * intros [[? [=]]|(r & Hin & Hid)]. exists r. split; [exact Hin|]. split; [|exact Hid].
        destruct r; [reflexivity | discriminate].
      * intros (r & Hin & _ & Hid). right. eauto.
    + unfold get_backup_metadata. intros info Hinfo.
      destruct (backup_metadata (backup_manager st') !! id) as [ref|] eqn:Hl; [|discriminate].
      destruct (Hok' id ref Hl) as [(info' & Hi & Hs & Hid) _].
      rewrite Hi in Hinfo. injection Hinfo as <-. auto.
    + intros Hnone. unfold get_backup_metadata.
      destruct (backup_metadata (backup_manager st') !! id) as [ref|] eqn:Hl; [|reflexivity].
      destruct (Hok' id ref Hl) as [_ [x Hx]]. congruence.
  - intros Hactive Hinj. apply unrecorded_of_invariants; [exact Hok'|].
    apply Hstep; [exact Hinj|]. split.
    + intros id ref. rewrite Hactive, lookup_empty. discriminate.
    + intros id ref. rewrite Hempty, lookup_empty. discriminate.
Qed.

Lemma backup_catalog_completed_only_witness :
  exists rs st',
    run_backups ["/backups/a"; "/backups/b"] state_second_backup_fails = (Val rs, st')
    /\ Forall2 reports ["/backups/a"; "/backups/b"] rs
    /\ (forall id,
          is_Some (get_backup_metadata id st')
          <-> exists r, In r rs /\ succeeded r = true /\ reported_id r = Some id)
    /\ failed_backups_unrecorded st'.
Proof.
  destruct (backup_catalog_completed_only ["/backups/a"; "/backups/b"]
              state_second_backup_fails eq_refl)
    as (rs & st' & Hrun & Hrep & _ & Hids & Hfailed).
  exists rs, st'. split; [exact Hrun|]. split; [exact Hrep|]. split.
  - intros id. apply Hids.
  - apply Hfailed; [reflexivity|]. intros n m Heq. cbn in Heq. now apply (inj pretty) in Heq.
Defined.

(** C10, as stated, fails. Two backups are started within one second;
    the first succeeds and the second fails. Both bear the same id, the
    second is on file as failed, and [get_backup_metadata] answers with
    the record of the first for the id. *)
Lemma failed_backup_id_on_record :
  ~ failed_backups_unrecorded
      (run_backups ["/backups/a"; "/backups/b"] state_same_second).2.
Proof.
  intros H.
  assert (Hget : get_backup_metadata "detorrent_backup_20260101_120000"
                   (run_backups ["/backups/a"; "/backups/b"] state_same_second).2 = None).
  { apply (H _ 1%nat (mkBackupInfo "detorrent_backup_20260101_120000" "/backups/b"
                                   "20260101_120000" "failed")).
    - vm_compute. reflexivity.
    - vm_compute. reflexivity.
    - reflexivity. }
  vm_compute in Hget. discriminate Hget.
Qed.

Example same_second_run :
  let run := run_backups ["/backups/a"; "/backups/b"] state_same_second in
  run.1 = Val [Success [("backup_id", "detorrent_backup_20260101_120000");
                        ("path", "/backups/a")];
               Failure "No space left on device"]
  /\ active_backups (backup_manager run.2) !! "detorrent_backup_20260101_120000" = Some 1%nat
  /\ objects (backup_manager run.2) !! 1%nat
     = Some (mkBackupInfo "detorrent_backup_20260101_120000" "/backups/b"
                          "20260101_120000" "failed")
  /\ get_backup_metadata "detorrent_backup_20260101_120000" run.2
     = Some (mkBackupInfo "detorrent_backup_20260101_120000" "/backups/a"
                          "20260101_120000" "completed").
Proof. cbv zeta. repeat split; vm_compute; reflexivity. Qed.

(** The first backup succeeds and is on record as completed; the second
    one fails, its dictionary says [failed], and the catalog has nothing
    under its id. *)
Example second_backup_fails :
  let run := run_backups ["/backups/a"; "/backups/b"] state_second_backup_fails in
  run.1 = Val [Success [("backup_id", "detorrent_backup_1"); ("path", "/backups/a")];
               Failure "No space left on device"]
  /\ get_backup_metadata "detorrent_backup_1" run.2
     = Some (mkBackupInfo "detorrent_backup_1" "/backups/a" "2" "completed")
  /\ active_backups (backup_manager run.2) !! "detorrent_backup_5" = Some 1%nat
  /\ objects (backup_manager run.2) !! 1%nat
     = Some (mkBackupInfo "detorrent_backup_5" "/backups/b" "6" "failed")
  /\ get_backup_metadata "detorrent_backup_5" run.2 = None.
Proof. cbv zeta. repeat split; vm_compute; reflexivity. Qed.


(** ** The stages as the engine sees them *)

Lemma same_iso_with_world f : respects same_iso (modify (with_world f)).
Proof. intros st. reflexivity. Qed.

Lemma same_iso_log e : respects same_iso (log e).
Proof. intros st. reflexivity. Qed.

Lemma same_iso_with_operation_log f : respects same_iso (modify (with_operation_log f)).
Proof. intros st. reflexivity. Qed.

Lemma same_iso_subprocess_run c : respects same_iso (subprocess_run c).
Proof.
  intros st. unfold subprocess_run. destruct (proc_at (world st) (tick (world st)));
    reflexivity.
Qed.

Lemma same_iso_library_io : respects same_iso library_io.
Proof.
  intros st. unfold library_io. destruct (io_at (world st) (tick (world st))); reflexivity.
Qed.

Lemma same_iso_rmtree p : respects same_iso (rmtree p).
Proof. intros st. reflexivity. Qed.

#[export] Hint Resolve same_iso_with_world same_iso_log same_iso_with_operation_log
  same_iso_subprocess_run same_iso_library_io same_iso_rmtree : frames.

Lemma same_iso_prepare_partition p : respects same_iso (prepare_partition p).
Proof.
  unfold prepare_partition, _prepare_windows_partition, _prepare_unix_partition. frame.
Qed.

Lemma same_iso_install_from_mounted mp p : respects same_iso (install_from_mounted mp p).
Proof. unfold install_from_mounted, _find_install_script. frame. Qed.

Lemma same_iso_configure_bootloader p : respects same_iso (configure_bootloader p).
Proof.
  unfold configure_bootloader, _configure_windows_bootloader, _configure_grub_bootloader.
  frame.
Qed.

(** A traced method whose body returns and only runs tools leaves one
    block of events behind. *)
Lemma traced_block method args (body : M Result) :
  returns body -> respects only_runs body ->
  forall st, exists r st' evs,
      traced method args body st = (Val r, st')
      /\ trace (world st') = (trace (world st) ++ evs)%list
      /\ call_block method args (succeeded r) evs
      /\ exists st1,
           body (with_world (emit (Called method args)) st) = (Val r, st1)
           /\ st' = with_world (emit (Returned method (succeeded r))) st1.
Proof.
  intros Hret Hruns st.
  destruct (Hret (with_world (emit (Called method args)) st)) as (r & st1 & Hbody).
  pose proof (Hruns (with_world (emit (Called method args)) st)) as (inner & Ht & Hin).
  rewrite Hbody in Ht. simpl in Ht.
  exists r, (with_world (emit (Returned method (succeeded r))) st1),
    (Called method args :: inner ++ [Returned method (succeeded r)])%list.
  split; [|split; [|split]].
  - unfold traced, bind, log, modify, ret. simpl. rewrite Hbody. reflexivity.
  - simpl. rewrite Ht, <- !app_assoc. reflexivity.
  - exists inner. split; [reflexivity | exact Hin].
  - exists st1. split; [exact Hbody | reflexivity].
Qed.

Lemma method_block (m : M Result) method args body :
  m = traced method args body ->
  returns body -> respects only_runs body ->
  forall st, exists r st' evs,
      m st = (Val r, st')
      /\ trace (world st') = (trace (world st) ++ evs)%list
      /\ stage_block method (succeeded r) evs.
Proof.
  intros -> Hret Hruns st.
  destruct (traced_block method args body Hret Hruns st) as (r & st' & evs & H1 & H2 & H3 & _).
  exists r, st', evs. split; [exact H1|]. split; [exact H2|]. now exists args.
Qed.

Lemma method_block_body (m : M Result) method args body :
  m = traced method args body ->
  returns body -> respects only_runs body ->
  forall st, exists r st' evs,
      m st = (Val r, st')
      /\ trace (world st') = (trace (world st) ++ evs)%list
      /\ call_block method args (succeeded r) evs
      /\ exists st1,
           body (with_world (emit (Called method args)) st) = (Val r, st1)
           /\ st' = with_world (emit (Returned method (succeeded r))) st1.
Proof. intros -> Hret Hruns st. now apply traced_block. Qed.

Lemma same_iso_with_backup f : respects same_iso (modify (with_backup f)).
Proof. intros st. reflexivity. Qed.

Lemma same_iso_new_object info : respects same_iso (new_object info).
Proof. intros st. reflexivity. Qed.

Lemma same_iso_now : respects same_iso now.
Proof. intros st. reflexivity. Qed.

Lemma same_iso_makedirs p : respects same_iso (makedirs p).
Proof.
  intros st. unfold makedirs. destruct (io_at (world st) (tick (world st))); reflexivity.
Qed.

Lemma same_iso_mkdtemp p : respects same_iso (mkdtemp p).
Proof.
  intros st. unfold mkdtemp. destruct (io_at (world st) (tick (world st))); reflexivity.
Qed.

#[export] Hint Resolve same_iso_with_backup same_iso_new_object same_iso_now
  same_iso_makedirs same_iso_mkdtemp : frames.

Lemma same_iso_create_system_backup p : respects same_iso (create_system_backup p).
Proof.
  unfold create_system_backup, _generate_backup_id, set_status, _create_windows_backup,
    _create_unix_backup, write_archive.
  frame.
Qed.

Lemma create_system_backup_block backup_path st :
  exists r st' evs,
    create_system_backup backup_path st = (Val r, st')
    /\ trace (world st') = (trace (world st) ++ evs)%list
    /\ stage_block "create_system_backup" (succeeded r) evs.
Proof.
  eapply method_block; [reflexivity | apply try_except_returns |].
  unfold _generate_backup_id, set_status, _create_windows_backup, _create_unix_backup,
    write_archive.
  frame.
Qed.

Lemma prepare_partition_block p st :
  exists r st' evs,
    prepare_partition p st = (Val r, st')
    /\ trace (world st') = (trace (world st) ++ evs)%list
    /\ stage_block "prepare_partition" (succeeded r) evs.
Proof.
  eapply method_block; [reflexivity | apply try_except_returns |].
  unfold _prepare_windows_partition, _prepare_unix_partition. frame.
Qed.

Lemma install_from_mounted_block mp p st :
  exists r st' evs,
    install_from_mounted mp p st = (Val r, st')
    /\ trace (world st') = (trace (world st) ++ evs)%list
    /\ stage_block "install_from_mounted" (succeeded r) evs.
Proof.
  eapply method_block; [reflexivity | apply try_except_returns |].
  unfold _find_install_script. frame.
Qed.

Lemma configure_bootloader_block p st :
  exists r st' evs,
    configure_bootloader p st = (Val r, st')
    /\ trace (world st') = (trace (world st) ++ evs)%list
    /\ stage_block "configure_bootloader" (succeeded r) evs.
Proof.
  eapply method_block; [reflexivity | apply try_except_returns |].
  unfold _configure_windows_bootloader, _configure_grub_bootloader. frame.
Qed.

Lemma mount_iso_block iso_path st :
  exists r st' evs,
    mount_iso iso_path st = (Val r, st')
    /\ trace (world st') = (trace (world st) ++ evs)%list
    /\ stage_block "mount_iso" (succeeded r) evs
    /\ (succeeded r = true ->
        exists mount_point,
          r = Success [("mount_point", mount_point)]
          /\ assoc iso_path (mounted_isos (iso_manager st')) = Some mount_point).
Proof.
  pose proof (fun H => method_block_body (mount_iso iso_path) "mount_iso" [iso_path] _
                        eq_refl (try_except_returns _) H st) as Hblock.
  destruct Hblock as (r & st' & evs & H1 & H2 & H3 & st1 & Hb & ->); [frame|].
  exists r. eexists _, evs. split; [exact H1|]. split; [exact H2|].
  split; [now exists [iso_path]|].
  intros Hok. revert Hb.
  unfold try_except, bind, get, makedirs, subprocess_run, modify, ret. cbn.
  destruct (io_at (world st) (tick (world st))); cbn.
  { intros [= <- _]. discriminate. }
  destruct (proc_at (world st) (S (tick (world st)))) as [rc err|msg]; cbn.
  - destruct (rc =? 0); cbn; intros [= <- <-]; [|discriminate].
    eexists. split; [reflexivity|]. cbn. apply assoc_dict_set.
  - intros [= <- _]. discriminate.
Qed.

Arguments create_system_backup : simpl never.
Arguments mount_iso : simpl never.
Arguments prepare_partition : simpl never.
Arguments install_from_mounted : simpl never.
Arguments configure_bootloader : simpl never.

(** Normalise an equation between traces. *)
Ltac trace_eq :=
  cbn; repeat match goal with H : trace (world _) = _ |- _ => cbn in H; rewrite H; clear H end;
  repeat (rewrite <- app_assoc; cbn [app]); cbn [app]; reflexivity.

(** Close one path of the run: the result, the trace, the shape of the
    events, the status, the mount table. *)
Ltac run_leaf :=
  eexists _, _, _, _; split; [reflexivity|];
  split; [|split; [solve [econstructor; (eassumption || reflexivity)]|]];
  [trace_eq | split; [reflexivity|]].

Lemma execute_os_switch_run iso_path target_partition preserve_data st :
  exists r st' mounted evs,
    execute_os_switch iso_path target_partition preserve_data st = (Val r, st')
    /\ trace (world st') = (trace (world st) ++ evs ++ [Progress 0])%list
    /\ run_events preserve_data r mounted evs
    /\ get_operation_status st' = (None, 0)
    /\ (mounted = true -> is_mounted iso_path st').
Proof.
  assert (Htail : forall s0 b,
    trace (world s0) = (trace (world st) ++ Progress 0 :: b)%list ->
    backup_part preserve_data b ->
    exists r st' mounted evs,
      (let '(r0, s1) :=
         try_except
           (let* _ := modify (set_progress 20) in
            let* mount_result := mount_iso iso_path in
            if negb (succeeded mount_result) then ret (Failure "ISO mount failed")
            else
              let* _ := modify (set_progress 40) in
              let* partition_result := prepare_partition target_partition in
              if negb (succeeded partition_result)
              then ret (Failure "Partition preparation failed")
              else
                let* _ := modify (set_progress 60) in
                let* mount_point := getitem mount_result "mount_point" in
                let* install_result := install_from_mounted mount_point target_partition in
                if negb (succeeded install_result) then ret (Failure "Installation failed")
                else
                  let* _ := modify (set_progress 80) in
                  let* bootloader_result := configure_bootloader target_partition in
                  if negb (succeeded bootloader_result)
                  then ret (Failure "Bootloader configuration failed")
                  else
                    let* _ := modify (set_progress 100) in
                    ret (Success [("message", "OS switch completed successfully")]))
           (fun e => ret (Failure e)) s0 in
       (r0, set_progress 0 (set_current_operation None s1))) = (Val r, st')
      /\ trace (world st') = (trace (world st) ++ evs ++ [Progress 0])%list
      /\ run_events preserve_data r mounted evs
      /\ get_operation_status st' = (None, 0)
      /\ (mounted = true -> is_mounted iso_path st')).
  { intros s0 b Ht0 Hb0. unfold try_except, bind, modify, ret. cbn.
    destruct (mount_iso_block iso_path (set_progress 20 s0))
      as (rm & sm & em & Hrm & Htm & Hbm & Hmnt).
    rewrite Hrm. destruct rm as [fm|errm]; cbn in *; [|run_leaf; discriminate].
    destruct (Hmnt eq_refl) as (mount_point & [= ->] & Hmp). clear Hmnt.
    pose proof (same_iso_prepare_partition target_partition (set_progress 40 sm)) as Hip.
    destruct (prepare_partition_block target_partition (set_progress 40 sm))
      as (rp & sp & ep & Hrp & Htp & Hbp).
    rewrite Hrp in Hip |- *. unfold same_iso in Hip. cbn in Hip.
    assert (Hmounted_p : is_mounted iso_path sp).
    { unfold is_mounted, mount_table. rewrite Hip, Hmp. eauto. }
    destruct rp as [fp|errp]; cbn in *; [|run_leaf; intros _; exact Hmounted_p].
    pose proof (same_iso_install_from_mounted mount_point target_partition
                  (set_progress 60 sp)) as Hii.
    destruct (install_from_mounted_block mount_point target_partition (set_progress 60 sp))
      as (ri & si & ei & Hri & Hti & Hbi).
    rewrite Hri in Hii |- *. unfold same_iso in Hii. cbn in Hii.
    assert (Hmounted_i : is_mounted iso_path si).
    { unfold is_mounted, mount_table in *. now rewrite Hii. }
    destruct ri as [fi|erri]; cbn in *; [|run_leaf; intros _; exact Hmounted_i].
    pose proof (same_iso_configure_bootloader target_partition (set_progress 80 si)) as Hic.
    destruct (configure_bootloader_block target_partition (set_progress 80 si))
      as (rc & sc & ec & Hrc & Htc & Hbc).
    rewrite Hrc in Hic |- *. unfold same_iso in Hic. cbn in Hic.
    assert (Hmounted_c : is_mounted iso_path sc).
    { unfold is_mounted, mount_table in *. now rewrite Hic. }
    destruct rc as [fc|errc]; cbn in *; run_leaf; intros _; exact Hmounted_c. }
  unfold execute_os_switch, try_finally, try_except, create_backup.
  unfold bind, modify, ret. cbn.
  destruct preserve_data; cbn.
  - unfold mkdtemp. cbn. destruct (io_at (world st) (tick (world st))); cbn.
    { run_leaf. discriminate. }
    match goal with
    | |- context [create_system_backup ?d ?s] =>
        destruct (create_system_backup_block d s) as (rb & sb & eb & Hrb & Htb & Hbb)
    end.
    rewrite Hrb. destruct rb as [fb|errb]; cbn in *; [|run_leaf; discriminate].
    apply (Htail sb eb); [|exact Hbb]. trace_eq.
  - apply (Htail _ []); reflexivity.
Qed.

(** ** Reading a trace *)

Lemma returns_of_app a b : returns_of (a ++ b) = (returns_of a ++ returns_of b)%list.
Proof. apply flat_map_app. Qed.

Lemma calls_of_app a b : calls_of (a ++ b) = (calls_of a ++ calls_of b)%list.
Proof. apply flat_map_app. Qed.

Lemma progress_of_app a b : progress_of (a ++ b) = (progress_of a ++ progress_of b)%list.
Proof. apply flat_map_app. Qed.

Lemma returns_of_cons e l :
  returns_of (e :: l)
  = (match e with Returned m ok => [(m, ok)] | _ => [] end ++ returns_of l)%list.
Proof. reflexivity. Qed.

Lemma calls_of_cons e l :
  calls_of (e :: l)
  = (match e with Called m args => [(m, args)] | _ => [] end ++ calls_of l)%list.
Proof. reflexivity. Qed.

Lemma progress_of_cons e l :
  progress_of (e :: l)
  = (match e with Progress p => [p] | _ => [] end ++ progress_of l)%list.
Proof. reflexivity. Qed.

Lemma in_returns_of m ok evs : In (Returned m ok) evs <-> In (m, ok) (returns_of evs).
Proof.
  unfold returns_of. rewrite in_flat_map. split.
  - intros H. exists (Returned m ok). split; [exact H | now left].
  - intros (e & He & Hin). destruct e; simpl in Hin; try tauto.
    destruct Hin as [[= -> ->]|[]]. exact He.
Qed.

Lemma in_calls_of m args evs : In (Called m args) evs <-> In (m, args) (calls_of evs).
Proof.
  unfold calls_of. rewrite in_flat_map. split.
  - intros H. exists (Called m args). split; [exact H | now left].
  - intros (e & He & Hin). destruct e; simpl in Hin; try tauto.
    destruct Hin as [[= -> ->]|[]]. exact He.
Qed.

Lemma ran_silent inner :
  Forall is_ran inner ->
  returns_of inner = [] /\ calls_of inner = [] /\ progress_of inner = [].
Proof.
  induction 1 as [|e l He _ (IH1 & IH2 & IH3)]; [repeat split|].
  destruct e; try contradiction.
  rewrite returns_of_cons, calls_of_cons, progress_of_cons, IH1, IH2, IH3. repeat split.
Qed.

Lemma call_block_summary method args ok evs :
  call_block method args ok evs ->
  returns_of evs = [(method, ok)]
  /\ calls_of evs = [(method, args)]
  /\ progress_of evs = [].
Proof.
  intros (inner & -> & Hin). destruct (ran_silent inner Hin) as (H1 & H2 & H3).
  rewrite returns_of_cons, calls_of_cons, progress_of_cons.
  rewrite returns_of_app, calls_of_app, progress_of_app, H1, H2, H3. repeat split.
Qed.

(** Replace the blocks of a path by what they say. *)
Ltac summarize :=
  repeat match goal with
    | H : backup_part true _ |- _ => unfold backup_part in H
    | H : backup_part false _ |- _ => unfold backup_part in H; subst
    | H : stage_block _ _ _ |- _ =>
        let a := fresh "block_args" in
        destruct H as [a H]; apply call_block_summary in H as (? & ? & ?)
    end.

Ltac read_trace :=
  repeat (rewrite ?returns_of_cons, ?calls_of_cons, ?progress_of_cons,
            ?returns_of_app, ?calls_of_app, ?progress_of_app);
  repeat match goal with
    | H : returns_of _ = _ |- _ => rewrite H
    | H : calls_of _ = _ |- _ => rewrite H
    | H : progress_of _ = _ |- _ => rewrite H
    end;
  cbn [app returns_of calls_of progress_of flat_map].

Ltac read_trace_in Hin :=
  repeat (rewrite ?returns_of_cons, ?calls_of_cons, ?progress_of_cons,
            ?returns_of_app, ?calls_of_app, ?progress_of_app in Hin);
  repeat match goal with
    | H : returns_of _ = _ |- _ => rewrite H in Hin
    | H : calls_of _ = _ |- _ => rewrite H in Hin
    | H : progress_of _ = _ |- _ => rewrite H in Hin
    end;
  cbn [app returns_of calls_of progress_of flat_map In] in Hin.

(** ** The migration run, claim by claim *)

(** C1. A run of [execute_os_switch] always returns. When one of the
    pipeline's methods (backup, mount, partition preparation,
    installation, boot loader) returned a failure in the run, the run's
    result is the failure with that stage's fixed message and no method
    of a later stage was called. And in every case, success included,
    [get_operation_status] afterwards reports no current operation and
    progress 0. *)
Theorem stage_failure_reported (iso_path target_partition : string)
    (preserve_data : bool) (st : State) :
  exists r st' evs,
    execute_os_switch iso_path target_partition preserve_data st = (Val r, st')
    /\ trace (world st') = (trace (world st) ++ evs)%list
    /\ get_operation_status st' = (None, 0)
    /\ forall k method template,
         pipeline !! k = Some (method, template) ->
         In (Returned method false) evs ->
         r = Failure template
         /\ forall j method' template' args,
              (k < j)%nat -> pipeline !! j = Some (method', template') ->
              ~ In (Called method' args) evs.
Proof.
  destruct (execute_os_switch_run iso_path target_partition preserve_data st)
    as (r & st' & mounted & evs & Hrun & Ht & Hev & Hstatus & _).
  exists r, st', (evs ++ [Progress 0])%list.
  split; [exact Hrun|]. split; [exact Ht|]. split; [exact Hstatus|].
  intros k method template Hk Hin.
  apply in_returns_of in Hin.
  assert (Hlater : forall j method' template' args,
             In (Called method' args) (evs ++ [Progress 0]) ->
             pipeline !! j = Some (method', template') ->
             In (method', args) (calls_of (evs ++ [Progress 0])) /\ (j < 5)%nat).
  { intros j method' template' args Hc Hj. split; [now apply in_calls_of|].
    apply lookup_lt_Some in Hj. exact Hj. }
  destruct preserve_data; inversion Hev; subst; summarize; read_trace_in Hin;
    do 5 (try destruct k as [|k]); try discriminate Hk;
    injection Hk as <- <-;
    try (exfalso; intuition congruence);
    (split; [reflexivity|]);
    intros j method' template' args Hlt Hj Hc;
    destruct (Hlater j method' template' args Hc Hj) as [Hc' Hj5];
    read_trace_in Hc';
    do 5 (try destruct j as [|j]); try lia;
    injection Hj as <- <-; intuition congruence.
Qed.

Lemma stage_failure_reported_witness :
  exists r st',
    execute_os_switch "linux.iso" "/dev/sdb1" true (fresh_state Posix) = (Val r, st')
    /\ r = Failure "Installation failed"
    /\ get_operation_status st' = (None, 0).
Proof.
  destruct (stage_failure_reported "linux.iso" "/dev/sdb1" true (fresh_state Posix))
    as (r & st' & evs & Hrun & Ht & Hstatus & Hfail).
  exists r, st'. split; [exact Hrun|]. split; [|exact Hstatus].
  apply (Hfail 3%nat "install_from_mounted" "Installation failed" eq_refl).
  assert (Hst : st' = (execute_os_switch "linux.iso" "/dev/sdb1" true (fresh_state Posix)).2)
    by (rewrite Hrun; reflexivity).
  simpl in Ht. rewrite <- Ht, Hst. vm_compute.
  repeat (first [left; reflexivity | right]).
Defined.



(** ** Mounted images and [cleanup] *)

Lemma unmounts_of_app a b : unmounts_of (a ++ b) = (unmounts_of a ++ unmounts_of b)%list.
Proof. unfold unmounts_of. now rewrite calls_of_app, List.filter_app, map_app. Qed.

Lemma unmount_iso_block iso_path st :
  exists r st' evs,
    unmount_iso iso_path st = (Val r, st')
    /\ trace (world st') = (trace (world st) ++ evs)%list
    /\ call_block "unmount_iso" [iso_path] (succeeded r) evs.
Proof.
  pose proof (fun H => method_block_body (unmount_iso iso_path) "unmount_iso" [iso_path] _
                        eq_refl (try_except_returns _) H st) as Hblock.
  destruct Hblock as (r & st' & evs & H1 & H2 & H3 & _); [frame | eauto 10].
Qed.

Lemma unmount_each_calls keys st :
  exists st' evs,
    unmount_each keys st = (Val tt, st')
    /\ trace (world st') = (trace (world st) ++ evs)%list
    /\ unmounts_of evs = map (fun p => [p]) keys.
Proof.
  revert st. induction keys as [|p keys IH]; intros st.
  - exists st, []. rewrite app_nil_r. repeat split.
  - destruct (unmount_iso_block p st) as (r & st1 & e1 & Hrun & Ht1 & Hb).
    destruct (IH st1) as (st' & e2 & Hrest & Ht2 & Hu).
    exists st', (e1 ++ e2)%list. split; [|split].
    + simpl. unfold bind. now rewrite Hrun.
    + now rewrite Ht2, Ht1, app_assoc.
    + rewrite unmounts_of_app, Hu. apply call_block_summary in Hb as (_ & Hc & _).
      unfold unmounts_of at 1. rewrite Hc. reflexivity.
Qed.

(** C2, as the code has it. A run of [execute_os_switch] never calls
    [unmount_iso], whatever path it takes: when [mount_iso] succeeded in
    the run, the image is still in the mount table when the result is
    returned. The unmounting is left to [cleanup], which calls
    [unmount_iso] once for each path of the table, in the order of the
    table. *)
Theorem mounted_image_left_to_cleanup (iso_path target_partition : string)
    (preserve_data : bool) (st : State) :
  (exists r st' evs,
      execute_os_switch iso_path target_partition preserve_data st = (Val r, st')
      /\ trace (world st') = (trace (world st) ++ evs)%list
      /\ unmounts_of evs = []
      /\ (In (Returned "mount_iso" true) evs -> is_mounted iso_path st'))
  /\ (exists st' evs,
         cleanup st = (Val tt, st')
         /\ trace (world st') = (trace (world st) ++ evs)%list
         /\ unmounts_of evs = map (fun p => [p]) (dict_keys (mount_table st))).
Proof.
  split.
  - destruct (execute_os_switch_run iso_path target_partition preserve_data st)
      as (r & st' & mounted & evs & Hrun & Ht & Hev & _ & Hmounted).
    exists r, st', (evs ++ [Progress 0])%list.
    split; [exact Hrun|]. split; [exact Ht|].
    assert (Hsplit : unmounts_of (evs ++ [Progress 0]) = []
                     /\ (In ("mount_iso", true) (returns_of (evs ++ [Progress 0])) ->
                         mounted = true)).
    { unfold unmounts_of.
      destruct preserve_data; inversion Hev; subst; summarize; read_trace;
        (split; [reflexivity | cbn; intuition congruence]). }
    destruct Hsplit as [Hnone Hm]. split; [exact Hnone|].
    intros Hin. apply Hmounted, Hm, in_returns_of, Hin.
  - unfold cleanup, mount_table.
    destruct (unmount_each_calls (dict_keys (mounted_isos (iso_manager st))) st)
      as (st1 & evs & Hrun & Ht & Hu).
    unfold bind, get, path_exists, rmtree, modify, ret. rewrite Hrun.
    destruct (bool_decide _); eexists _, evs; (split; [reflexivity|]); split;
      assumption.
Qed.

(** C2, as stated, fails: in this run every stage succeeds, [mount_iso]
    among them, and [unmount_iso] is not called on the image. *)
Lemma mounted_image_not_unmounted :
  let run := execute_os_switch "linux.iso" "/dev/sdb1" true installable_state in
  run.1 = Val (Success [("message", "OS switch completed successfully")])
  /\ ~ (In (Returned "mount_iso" true) (trace (world run.2)) ->
        matching_unmounts "linux.iso" (trace (world run.2)) = 1%nat).
Proof.
  cbv zeta. split; [vm_compute; reflexivity|].
  intros H. assert (Hin : In (Returned "mount_iso" true)
    (trace (world (execute_os_switch "linux.iso" "/dev/sdb1" true installable_state).2))).
  { vm_compute. repeat (first [left; reflexivity | right]). }
  apply H in Hin. vm_compute in Hin. discriminate Hin.
Qed.

Lemma mounted_image_left_to_cleanup_witness :
  is_mounted "linux.iso"
    (execute_os_switch "linux.iso" "/dev/sdb1" true installable_state).2.
Proof.
  destruct (mounted_image_left_to_cleanup "linux.iso" "/dev/sdb1" true installable_state)
    as [(r & st' & evs & Hrun & Ht & _ & Hm) _].
  rewrite Hrun. simpl. apply Hm.
  assert (Hst : st' = (execute_os_switch "linux.iso" "/dev/sdb1" true installable_state).2)
    by (rewrite Hrun; reflexivity).
  simpl in Ht. rewrite <- Ht, Hst. vm_compute.
  repeat (first [left; reflexivity | right]).
Defined.


(** * Further properties of the code *)

(** ** Mounting and unmounting *)

(** X1. [mount_iso] always returns. It changes the mount table only when
    it reports success, and then by recording the image under the mount
    point it chose; whenever the mount point directory could be created
    it exists afterwards, so a mount that fails leaves it behind. *)
Theorem mount_iso_outcomes (iso_path : string) (st : State) :
  exists r st',
    mount_iso iso_path st = (Val r, st')
    /\ (succeeded r = false -> mount_table st' = mount_table st)
    /\ (succeeded r = true ->
        r = Success [("mount_point", next_mount_point st)]
        /\ mount_table st' = dict_set iso_path (next_mount_point st) (mount_table st))
    /\ (io_at (world st) (tick (world st)) = None ->
        next_mount_point st ∈ paths (world st')).
Proof.
  unfold mount_iso, traced, log.
  unfold try_except, bind, get, makedirs, subprocess_run, modify, ret. cbn.
  destruct (io_at (world st) (tick (world st))); cbn.
  { eexists _, _. split; [reflexivity|]. repeat split; try discriminate. }
  destruct (proc_at (world st) (S (tick (world st)))) as [rc err|msg]; cbn.
  - destruct (rc =? 0); cbn; eexists _, _; (split; [reflexivity|]);
      repeat split; try discriminate; intros; cbn; set_solver.
  - eexists _, _. split; [reflexivity|]. repeat split; try discriminate.
    intros; cbn; set_solver.
Qed.


Lemma mount_iso_ok iso_path st :
  all_goes_well st ->
  exists st',
    mount_iso iso_path st = (Val (Success [("mount_point", next_mount_point st)]), st')
    /\ mount_table st' = dict_set iso_path (next_mount_point st) (mount_table st)
    /\ same_env st st'.
Proof.
  intros [Hio Hproc]. destruct (Hproc (S (tick (world st)))) as [err Herr].
  unfold mount_iso, traced, log.
  unfold try_except, bind, get, makedirs, subprocess_run, modify, ret. cbn.
  rewrite Hio. cbn. rewrite Herr. cbn.
  eexists. split; [reflexivity|]. split; [reflexivity|]. repeat split.
Qed.

Lemma unmount_iso_ok iso_path mount_point st :
  all_goes_well st ->
  assoc iso_path (mount_table st) = Some mount_point ->
  exists st',
    unmount_iso iso_path st = (Val (Success []), st')
    /\ mount_table st' = dict_del iso_path (mount_table st)
    /\ same_env st st'.
Proof.
  intros [Hio Hproc] Hm. destruct (Hproc (tick (world st))) as [err Herr].
  unfold mount_table in Hm.
  unfold unmount_iso, traced, log.
  unfold try_except, bind, get, subprocess_run, rmtree, modify, ret. cbn.
  rewrite Hm. cbn. rewrite Herr. cbn.
  eexists. split; [reflexivity|]. split; [reflexivity|]. repeat split.
Qed.

Lemma all_goes_well_same_env st st' : same_env st st' -> all_goes_well st -> all_goes_well st'.
Proof. intros (Hp & Hi & _) [Hio Hproc]. split; intros n; [rewrite Hi | rewrite Hp]; auto. Qed.

(** X3. Mount points are numbered by the size of the mount table, so
    they are reused: after mounting [a] and [b] into an empty table and
    unmounting [a], the next image [c] is mounted on the mount point [b]
    is still mounted on. *)
Theorem mount_point_reused (a b c : string) (st : State) :
  mount_table st = [] -> a <> b -> c <> b -> all_goes_well st ->
  exists fields st',
    remount_scenario a b c st = (Val (Success fields), st')
    /\ assoc b (mount_table st')
       = Some (path_join (os_name (world st)) (temp_directory (iso_manager st)) "mount_1")
    /\ assoc c (mount_table st')
       = Some (path_join (os_name (world st)) (temp_directory (iso_manager st)) "mount_1").
Proof.
  intros Hempty Hab Hcb Hwell.
  destruct (mount_iso_ok a st Hwell) as (s1 & H1 & T1 & E1).
  pose proof (all_goes_well_same_env _ _ E1 Hwell) as W1.
  destruct (mount_iso_ok b s1 W1) as (s2 & H2 & T2 & E2).
  pose proof (all_goes_well_same_env _ _ E2 W1) as W2.
  assert (Hb : String.eqb b a = false) by (apply String.eqb_neq; congruence).
  assert (Hab' : String.eqb a b = false) by (now apply String.eqb_neq).
  assert (Hcb' : String.eqb c b = false) by (now apply String.eqb_neq).
  rewrite Hempty in T1. unfold dict_set in T1.
  rewrite T1 in T2. unfold dict_set in T2. rewrite Hb in T2.
  assert (Ha2 : assoc a (mount_table s2) = Some (next_mount_point st)).
  { rewrite T2. simpl. now rewrite String.eqb_refl. }
  destruct (unmount_iso_ok a _ s2 W2 Ha2) as (s3 & H3 & T3 & E3).
  pose proof (all_goes_well_same_env _ _ E3 W2) as W3.
  rewrite T2 in T3. unfold dict_del in T3. simpl in T3.
  rewrite String.eqb_refl, Hab' in T3. simpl in T3.
  destruct (mount_iso_ok c s3 W3) as (s4 & H4 & T4 & E4).
  rewrite T3 in T4. unfold dict_set in T4. rewrite Hcb' in T4.
  assert (Hn1 : next_mount_point s1
                = path_join (os_name (world st)) (temp_directory (iso_manager st)) "mount_1").
  { unfold next_mount_point. destruct E1 as (_ & _ & -> & ->). now rewrite T1. }
  assert (Hn3 : next_mount_point s3
                = path_join (os_name (world st)) (temp_directory (iso_manager st)) "mount_1").
  { unfold next_mount_point. destruct E1 as (_ & _ & O1 & D1), E2 as (_ & _ & O2 & D2),
      E3 as (_ & _ & O3 & D3). rewrite O3, O2, O1, D3, D2, D1, T3. reflexivity. }
  eexists _, s4. split; [|split].
  - unfold remount_scenario, bind. rewrite H1, H2, H3. exact H4.
  - rewrite T4, Hn1. simpl. now rewrite String.eqb_refl.
  - rewrite T4, Hn3. simpl. rewrite Hcb'. now rewrite String.eqb_refl.
Qed.

Lemma mount_point_reused_witness :
  exists fields st',
    remount_scenario "a.iso" "b.iso" "c.iso" (fresh_state Posix) = (Val (Success fields), st')
    /\ assoc "b.iso" (mount_table st') = Some "/tmp/detorrent_iso_0/mount_1"
    /\ assoc "c.iso" (mount_table st') = Some "/tmp/detorrent_iso_0/mount_1".
Proof.
  apply (mount_point_reused "a.iso" "b.iso" "c.iso" (fresh_state Posix)).
  - reflexivity.
  - discriminate.
  - discriminate.
  - split; intros n; [reflexivity | now exists EmptyString].
Defined.

(** ** The installer of a mounted image *)

Lemma find_first_script_spec mount_point scripts st :
  exists found,
    find_first_script mount_point scripts st = (Val found, st)
    /\ match found with
       | None =>
           forall s, In s scripts ->
                     path_join (os_name (world st)) mount_point s ∉ paths (world st)
       | Some script_path =>
           exists before s after,
             scripts = (before ++ s :: after)%list
             /\ script_path = path_join (os_name (world st)) mount_point s
             /\ script_path ∈ paths (world st)
             /\ forall s', In s' before ->
                           path_join (os_name (world st)) mount_point s' ∉ paths (world st)
       end.
Proof.
  induction scripts as [|s rest IH].
  - exists None. split; [reflexivity|]. intros s [].
  - simpl. unfold bind, get, path_exists.
    destruct (bool_decide (path_join (os_name (world st)) mount_point s ∈ paths (world st)))
      eqn:Hs.
    + apply bool_decide_eq_true in Hs. eexists (Some _). split; [reflexivity|].
      exists [], s, rest. repeat split; [exact Hs | intros s' []].
    + apply bool_decide_eq_false in Hs. destruct IH as (found & Hrun & Hfound).
      exists found. split; [exact Hrun|]. destruct found as [script_path|].
      * destruct Hfound as (before & s0 & after & -> & Hp & Hin & Hbefore).
        exists (s :: before), s0, after. repeat split; try assumption.
        intros s' [<-|Hs']; [exact Hs | now apply Hbefore].
      * intros s' [<-|Hs']; [exact Hs | now apply Hfound].
Qed.

Lemma find_install_script_none mount_point st :
  exists found,
    _find_install_script mount_point st = (Val found, st)
    /\ ((forall s, In s possible_scripts ->
                   path_join (os_name (world st)) mount_point s ∉ paths (world st)) ->
        found = None).
Proof.
  destruct (find_first_script_spec mount_point possible_scripts st) as (found & Hrun & Hfound).
  exists found. split; [exact Hrun|]. intros Hnone.
  destruct found as [script_path|]; [|reflexivity].
  destruct Hfound as (before & s & after & Hl & -> & Hin & _).
  exfalso. apply (Hnone s); [|exact Hin]. rewrite Hl. apply in_elt.
Qed.

(** X4. [_find_install_script] looks for [setup.exe], [install.exe],
    [autorun.exe], [install.sh], [setup.sh], [installer] at the root of
    the mounted image, in this order, and answers with the first that
    exists; it answers [None] exactly when none of them exists. It
    changes nothing. *)
Theorem find_install_script_first (mount_point : string) (st : State) :
  exists found,
    _find_install_script mount_point st = (Val found, st)
    /\ (found = None
        <-> forall s, In s possible_scripts ->
                      path_join (os_name (world st)) mount_point s ∉ paths (world st))
    /\ forall script_path,
         found = Some script_path ->
         exists before s after,
           possible_scripts = (before ++ s :: after)%list
           /\ script_path = path_join (os_name (world st)) mount_point s
           /\ script_path ∈ paths (world st)
           /\ forall s', In s' before ->
                         path_join (os_name (world st)) mount_point s' ∉ paths (world st).
Proof.
  destruct (find_first_script_spec mount_point possible_scripts st) as (found & Hrun & Hfound).
  exists found. split; [exact Hrun|]. split.
  - destruct found as [script_path|]; split; try easy.
    intros Hnone. destruct Hfound as (before & s & after & Hl & -> & Hin & _).
    exfalso. apply (Hnone s); [|exact Hin]. rewrite Hl. apply in_elt.
  - intros script_path ->. exact Hfound.
Qed.

Arguments _find_install_script : simpl never.

(** X5. [install_from_mounted] always returns and leaves the mount table
    as it is. When none of the installer names exists under the mount
    point it reports [No installation script found] without running
    anything; when it reports success it ran exactly one command, which
    exited with status 0. *)
Theorem install_from_mounted_outcomes (mount_point target_partition : string) (st : State) :
  exists r st',
    install_from_mounted mount_point target_partition st = (Val r, st')
    /\ iso_manager st' = iso_manager st
    /\ ((forall s, In s possible_scripts ->
                   path_join (os_name (world st)) mount_point s ∉ paths (world st)) ->
        r = Failure "No installation script found"
        /\ tick (world st') = tick (world st)
        /\ paths (world st') = paths (world st))
    /\ (succeeded r = true ->
        tick (world st') = S (tick (world st))
        /\ exists err, proc_at (world st) (tick (world st)) = Completed 0 err).
Proof.
  unfold install_from_mounted, traced, log.
  unfold try_except, bind, modify, ret, get. cbn.
  match goal with
  | |- context [_find_install_script ?mp ?s] =>
      destruct (find_install_script_none mp s) as (found & Hrun & Hnone)
  end.
  cbn in Hnone. rewrite Hrun. destruct found as [script|].
  - unfold subprocess_run. cbn.
    destruct (proc_at (world st) (tick (world st))) as [rc err|msg] eqn:Hp; cbn.
    + destruct (Z.eqb_spec rc 0) as [->|Hrc]; cbn; eexists _, _; (split; [reflexivity|]);
        (split; [reflexivity|]); split; try discriminate.
      * intros Hall. apply Hnone in Hall. discriminate.
      * intros _. split; [reflexivity | eauto].
      * intros Hall. apply Hnone in Hall. discriminate.
    + eexists _, _. split; [reflexivity|]. split; [reflexivity|].
      split; [|discriminate]. intros Hall. apply Hnone in Hall. discriminate.
  - cbn. eexists _, _. split; [reflexivity|]. split; [reflexivity|].
    split; [|discriminate]. intros _. repeat split.
Qed.

(** ** Sequences of commands *)

Lemma ran_tools_refl st : ran_tools st st.
Proof. unfold ran_tools. now destruct st as [[] ? ? ? ? ?]. Qed.

Lemma ran_tools_trans a b c : ran_tools a b -> ran_tools b c -> ran_tools a c.
Proof. unfold ran_tools. intros Hab Hbc. rewrite Hbc at 1. rewrite Hab at 1. reflexivity. Qed.

Lemma ran_tools_subprocess_run c : respects ran_tools (subprocess_run c).
Proof.
  intros st. unfold subprocess_run, ran_tools.
  destruct (proc_at (world st) (tick (world st))); reflexivity.
Qed.

(** The loop over the commands ends in one of three ways, and until then
    nothing but running tools has happened. *)
Lemma run_each_cases mk rejected failure commands rest st :
  exists st1,
    ran_tools st st1
    /\ (run_each mk rejected failure commands rest st = rest st1
        \/ (exists err, run_each mk rejected failure commands rest st
                        = (Val (failure err), st1))
        \/ (exists msg, run_each mk rejected failure commands rest st = (Exc msg, st1))).
Proof.
  revert st. induction commands as [|c cs IH]; intros st; simpl.
  - exists st. split; [apply ran_tools_refl | now left].
  - pose proof (ran_tools_subprocess_run (mk c) st) as Hstep.
    unfold bind. destruct (subprocess_run (mk c) st) as [[[rc err]|msg] s1]; simpl in Hstep.
    + simpl. destruct (rejected rc).
      * exists s1. split; [exact Hstep|]. right. left. now exists err.
      * destruct (IH s1) as (st1 & Hran & Hcases). exists st1.
        split; [eapply ran_tools_trans; eassumption | exact Hcases].
    + exists s1. split; [exact Hstep|]. right. right. now exists msg.
Qed.

Lemma run_each_first_rejected mk rejected failure commands rest st k rc err :
  (k < length commands)%nat ->
  (forall i, (i < k)%nat ->
             exists rc' err', proc_at (world st) (tick (world st) + i) = Completed rc' err'
                              /\ rejected rc' = false) ->
  proc_at (world st) (tick (world st) + k) = Completed rc err ->
  rejected rc = true ->
  exists st',
    run_each mk rejected failure commands rest st = (Val (failure err), st')
    /\ tick (world st') = S (tick (world st) + k)
    /\ ran_tools st st'.
Proof.
  revert st k. induction commands as [|c cs IH]; intros st k Hk Hbefore Hat Hrej;
    [simpl in Hk; lia|].
  simpl. unfold bind, subprocess_run. destruct k as [|k].
  - rewrite Nat.add_0_r in Hat. rewrite Hat. simpl. rewrite Hrej.
    eexists. split; [reflexivity|]. split; [simpl; lia|].
    unfold ran_tools, with_world, step, emit. simpl. rewrite ?Hat. reflexivity.
  - assert (Hlt0 : (0 < S k)%nat) by lia.
    destruct (Hbefore 0%nat Hlt0) as (rc0 & err0 & H0 & Hok).
    rewrite Nat.add_0_r in H0. rewrite H0. simpl. rewrite Hok.
    edestruct (IH (with_world (fun w => step (emit (Ran (mk c) (proc_at w (tick w))) w)) st) k)
      as (st' & Hrun & Htick & Hran).
    + simpl in Hk. lia.
    + intros i Hi. simpl. assert (Hlt : (S i < S k)%nat) by lia.
      destruct (Hbefore (S i) Hlt) as (rc' & err' & H & Hr).
      exists rc', err'. split; [|exact Hr]. rewrite <- H. f_equal. lia.
    + simpl. rewrite <- Hat. f_equal. lia.
    + exact Hrej.
    + exists st'. split; [exact Hrun|]. split; [simpl in Htick; lia|].
      eapply ran_tools_trans; [|exact Hran].
      unfold ran_tools, with_world, step, emit. simpl. rewrite ?H0. reflexivity.
Qed.

(** X6. The stages that run several commands check each one before the
    next: when the command at position [k] is the first to exit with a
    status other than 0, preparing a partition (on either platform) and
    configuring the Windows boot loader stop there, report the failure
    with the diagnostic of that command, and have run [k + 1] commands;
    the program's own records (mount table, backup catalogs, operation
    log, current operation and progress) are as before. *)
Theorem multi_command_stage_stops (s : multi_stage) (arg : string) (st : State)
    (k : nat) (rc : Z) (err : string) :
  s <> RestoreWindows -> s <> RestoreUnix ->
  (k < stage_length s)%nat ->
  (forall i, (i < k)%nat ->
             exists err', proc_at (world st) (tick (world st) + i) = Completed 0 err') ->
  proc_at (world st) (tick (world st) + k) = Completed rc err ->
  rc <> 0 ->
  exists st',
    stage_fn s arg st = (Val (Failure (failure_prefix s +:+ err)), st')
    /\ tick (world st') = S (tick (world st) + k)
    /\ same_records st st'.
Proof.
  intros Hw Hu Hk Hbefore Hat Hrc.
  assert (Hrej : negb (rc =? 0) = true) by (now apply negb_true_iff, Z.eqb_neq).
  assert (Hbefore' : forall i, (i < k)%nat ->
             exists rc' err', proc_at (world st) (tick (world st) + i) = Completed rc' err'
                              /\ negb (rc' =? 0) = false).
  { intros i Hi. destruct (Hbefore i Hi) as [err' H]. now exists 0, err'. }
  destruct s; try congruence;
    cbv [stage_fn _prepare_windows_partition _prepare_unix_partition
           _configure_windows_bootloader try_except failure_prefix];
    match goal with
    | |- context [run_each ?mk ?rej ?fail ?cmds ?rest st] =>
        destruct (run_each_first_rejected mk rej fail cmds rest st k rc err Hk Hbefore' Hat Hrej)
          as (st' & Hrun & Htick & Hran)
    end;
    rewrite Hrun; exists st'; (split; [reflexivity|]); (split; [exact Htick|]);
    unfold ran_tools in Hran; rewrite Hran; repeat split.
Qed.

Lemma multi_command_stage_stops_witness :
  exists st',
    _prepare_unix_partition "/dev/sdb1" (state_exiting Posix 32)
    = (Val (Failure "Command failed: warning"), st')
    /\ tick (world st') = 1%nat.
Proof.
  destruct (multi_command_stage_stops PrepareUnix "/dev/sdb1" (state_exiting Posix 32)
              0 32 "warning") as (st' & Hrun & Htick & _).
  - discriminate.
  - discriminate.
  - simpl. lia.
  - intros i Hi. lia.
  - reflexivity.
  - lia.
  - exists st'. split; [exact Hrun | exact Htick].
Defined.

Arguments run_each : simpl never.

(** X7. [prepare_partition] always returns. It appends one line naming
    the partition to the operation log exactly when it reports success;
    a preparation that fails leaves the log as it was. *)
Theorem prepare_partition_logs_success (partition_identifier : string) (st : State) :
  exists r st',
    prepare_partition partition_identifier st = (Val r, st')
    /\ (succeeded r = true ->
        operation_log st'
        = (operation_log st ++ [prepared_entry (os_name (world st)) partition_identifier])%list)
    /\ (succeeded r = false -> operation_log st' = operation_log st).
Proof.
  unfold prepare_partition, traced, log.
  unfold try_except, bind, modify, ret, get. cbn.
  destruct (os_name (world st)) eqn:Hos;
    unfold _prepare_windows_partition, _prepare_unix_partition, try_except;
    match goal with
    | |- context [run_each ?mk ?rej ?fail ?cmds ?rest ?s] =>
        destruct (run_each_cases mk rej fail cmds rest s)
          as (st1 & Hran & [Hrun|[[err Hrun]|[msg Hrun]]]);
        rewrite Hrun
    end;
    unfold ran_tools in Hran; rewrite Hran; cbn; eexists _, _;
    (split; [reflexivity|]); cbn; split; try discriminate; try reflexivity; intros _;
    reflexivity.
Qed.

(** ** Cleaning up the image manager *)

Lemma same_env_trans a b c : same_env a b -> same_env b c -> same_env a c.
Proof.
  intros (P1 & I1 & O1 & D1) (P2 & I2 & O2 & D2). repeat split; congruence.
Qed.

Lemma unmount_iso_step iso_path st :
  exists r st',
    unmount_iso iso_path st = (Val r, st')
    /\ same_env st st'
    /\ (all_goes_well st -> mount_table st' = dict_del iso_path (mount_table st)).
Proof.
  unfold unmount_iso, traced, log.
  unfold try_except, bind, get, subprocess_run, rmtree, modify, ret, mount_table. cbn.
  destruct (assoc iso_path (mounted_isos (iso_manager st))) as [mount_point|] eqn:Hm; cbn.
  - destruct (proc_at (world st) (tick (world st))) as [rc err|msg] eqn:Hp; cbn.
    + destruct (rc =? 0) eqn:Hrc; cbn; eexists _, _; (split; [reflexivity|]);
        (split; [repeat split|]); try reflexivity.
      intros [_ Hproc]. destruct (Hproc (tick (world st))) as [err' Herr].
      rewrite Hp in Herr. injection Herr as -> _. discriminate.
    + eexists _, _. split; [reflexivity|]. split; [repeat split|].
      intros [_ Hproc]. destruct (Hproc (tick (world st))) as [err' Herr]. congruence.
  - eexists _, _. split; [reflexivity|]. split; [repeat split|].
    intros _. cbn. symmetry. now apply dict_del_absent.
Qed.

Lemma unmount_each_step keys st :
  exists st',
    unmount_each keys st = (Val tt, st')
    /\ same_env st st'
    /\ (all_goes_well st ->
        mount_table st' = fold_left (fun d k => dict_del k d) keys (mount_table st)).
Proof.
  revert st. induction keys as [|k keys IH]; intros st.
  - exists st. repeat split.
  - destruct (unmount_iso_step k st) as (r & s1 & Hrun & Henv & Htable).
    destruct (IH s1) as (st' & Hrest & Henv' & Htable').
    exists st'. split; [|split].
    + simpl. unfold bind. now rewrite Hrun.
    + eapply same_env_trans; eassumption.
    + intros Hwell. simpl. rewrite <- (Htable Hwell). apply Htable'.
      eapply all_goes_well_same_env; eassumption.
Qed.

Lemma dict_keys_del k k' d :
  In k' (dict_keys (dict_del k d)) -> In k' (dict_keys d) /\ k' <> k.
Proof.
  unfold dict_keys, dict_del. rewrite !in_map_iff.
  intros ([k0 v] & <- & Hin). apply List.filter_In in Hin as [Hin Hne]. simpl in *.
  split; [now exists (k0, v)|].
  intros ->. now rewrite String.eqb_refl in Hne.
Qed.

Lemma fold_dict_del_all keys d :
  (forall k, In k (dict_keys d) -> In k keys) ->
  fold_left (fun d k => dict_del k d) keys d = [].
Proof.
  revert d. induction keys as [|k keys IH]; intros d Hall; simpl.
  - destruct d as [|[k v] d]; [reflexivity|]. destruct (Hall k). now left.
  - apply IH. intros k' Hk'. apply dict_keys_del in Hk' as [Hin Hne].
    destruct (Hall k' Hin) as [->|H]; [congruence | exact H].
Qed.

(** X8. [cleanup] always returns, whether the images could be unmounted
    or not. The manager's temporary directory is deleted with errors
    ignored: it exists afterwards only if it resisted, as it does while
    an image is still mounted below it. When every unmount command exits
    with status 0 the mount table is empty afterwards. *)
Theorem cleanup_outcomes (st : State) :
  exists st',
    cleanup st = (Val tt, st')
    /\ (temp_directory (iso_manager st) ∈ paths (world st') ->
        temp_directory (iso_manager st) ∈ busy_at (world st') (tick (world st')))
    /\ (all_goes_well st -> mount_table st' = []).
Proof.
  unfold cleanup, bind, get.
  destruct (unmount_each_step (dict_keys (mounted_isos (iso_manager st))) st)
    as (s1 & Hrun & Henv & Htable).
  rewrite Hrun. unfold path_exists.
  assert (Hempty : all_goes_well st -> mount_table s1 = []).
  { intros Hwell. rewrite (Htable Hwell). now apply fold_dict_del_all. }
  destruct (bool_decide (temp_directory (iso_manager st) ∈ paths (world s1))) eqn:Hd.
  - eexists. split; [reflexivity|]. split; [|exact Hempty].
    cbn. intros Hin. apply elem_of_filter in Hin as [[Hb|Hb] _]; [|exact Hb].
    now rewrite below_refl in Hb.
  - apply bool_decide_eq_false in Hd. exists s1. split; [reflexivity|].
    split; [intros Hin; contradiction | exact Hempty].
Qed.

(** ** The order of the stages *)

(** Close one path of the tail of the run, keeping the shape of its
    events. *)
Ltac shape_leaf :=
  eexists _, _, _, _; split; [reflexivity|];
  split; [|split; [solve [econstructor; (eassumption || reflexivity)]|]];
  [trace_eq | eexists; reflexivity].

Lemma execute_os_switch_run_shape iso_path target_partition preserve_data st :
  exists r st' mounted evs,
    execute_os_switch iso_path target_partition preserve_data st = (Val r, st')
    /\ trace (world st') = (trace (world st) ++ evs ++ [Progress 0])%list
    /\ run_events preserve_data r mounted evs
    /\ (preserve_data = false -> exists rest, evs = Progress 0 :: Progress 20 :: rest).
Proof.
  assert (Htail : forall s0 b,
    trace (world s0) = (trace (world st) ++ Progress 0 :: b)%list ->
    backup_part preserve_data b ->
    exists r st' mounted evs,
      (let '(r0, s1) :=
         try_except
           (let* _ := modify (set_progress 20) in
            let* mount_result := mount_iso iso_path in
            if negb (succeeded mount_result) then ret (Failure "ISO mount failed")
            else
              let* _ := modify (set_progress 40) in
              let* partition_result := prepare_partition target_partition in
              if negb (succeeded partition_result)
              then ret (Failure "Partition preparation failed")
              else
                let* _ := modify (set_progress 60) in
                let* mount_point := getitem mount_result "mount_point" in
                let* install_result := install_from_mounted mount_point target_partition in
                if negb (succeeded install_result) then ret (Failure "Installation failed")
                else
                  let* _ := modify (set_progress 80) in
                  let* bootloader_result := configure_bootloader target_partition in
                  if negb (succeeded bootloader_result)
                  then ret (Failure "Bootloader configuration failed")
                  else
                    let* _ := modify (set_progress 100) in
                    ret (Success [("message", "OS switch completed successfully")]))
           (fun e => ret (Failure e)) s0 in
       (r0, set_progress 0 (set_current_operation None s1))) = (Val r, st')
      /\ trace (world st') = (trace (world st) ++ evs ++ [Progress 0])%list
      /\ run_events preserve_data r mounted evs
      /\ exists rest, evs = (Progress 0 :: b ++ Progress 20 :: rest)%list).
  { intros s0 b Ht0 Hb0. unfold try_except, bind, modify, ret. cbn.
    destruct (mount_iso_block iso_path (set_progress 20 s0))
      as (rm & sm & em & Hrm & Htm & Hbm & Hmnt).
    rewrite Hrm. destruct rm as [fm|errm]; cbn in *; [|shape_leaf].
    destruct (Hmnt eq_refl) as (mount_point & [= ->] & _). clear Hmnt.
    destruct (prepare_partition_block target_partition (set_progress 40 sm))
      as (rp & sp & ep & Hrp & Htp & Hbp).
    rewrite Hrp. destruct rp as [fp|errp]; cbn in *; [|shape_leaf].
    destruct (install_from_mounted_block mount_point target_partition (set_progress 60 sp))
      as (ri & si & ei & Hri & Hti & Hbi).
    rewrite Hri. destruct ri as [fi|erri]; cbn in *; [|shape_leaf].
    destruct (configure_bootloader_block target_partition (set_progress 80 si))
      as (rc & sc & ec & Hrc & Htc & Hbc).
    rewrite Hrc. destruct rc as [fc|errc]; cbn in *; shape_leaf. }
  unfold execute_os_switch, try_finally, try_except, create_backup.
  unfold bind, modify, ret. cbn.
  destruct preserve_data; cbn.
  - unfold mkdtemp. cbn. destruct (io_at (world st) (tick (world st))); cbn.
    { eexists _, _, _, _. split; [reflexivity|].
      split; [|split; [apply run_raised | discriminate]]. trace_eq. }
    match goal with
    | |- context [create_system_backup ?d ?s] =>
        destruct (create_system_backup_block d s) as (rb & sb & eb & Hrb & Htb & Hbb)
    end.
    rewrite Hrb. destruct rb as [fb|errb]; cbn in *.
    + destruct (Htail sb eb) as (r & st' & mounted & evs & H1 & H2 & H3 & _);
        [trace_eq | exact Hbb |].
      exists r, st', mounted, evs. split; [exact H1|]. split; [exact H2|].
      split; [exact H3 | discriminate].
    + eexists _, _, _, _. split; [reflexivity|].
      split; [|split; [apply run_backup_failed; eassumption | discriminate]]. trace_eq.
  - destruct (Htail (set_progress 0 (set_current_operation (Some "os_switch") st)) [])
      as (r & st' & mounted & evs & H1 & H2 & H3 & rest & Hrest);
      [reflexivity | reflexivity |].
    exists r, st', mounted, evs. split; [exact H1|]. split; [exact H2|].
    split; [exact H3|]. intros _. now exists rest.
Qed.

(** X9. A run of [execute_os_switch] calls the managers in the fixed
    order backup (only when data is to be preserved), mount, partition
    preparation, installation, boot loader, each at most once and each
    only after all earlier ones returned success: a method that returned
    a failure is the last one called. The run succeeds exactly when all
    of them were called and all returned success. *)
Theorem pipeline_order (iso_path target_partition : string) (preserve_data : bool)
    (st : State) :
  exists r st' evs,
    execute_os_switch iso_path target_partition preserve_data st = (Val r, st')
    /\ trace (world st') = (trace (world st) ++ evs)%list
    /\ (map fst (calls_of evs) `prefix_of` stage_methods preserve_data)
    /\ map fst (returns_of evs) = map fst (calls_of evs)
    /\ (forall method, In (method, false) (returns_of evs) ->
                       last (map fst (calls_of evs)) = Some method)
    /\ (succeeded r = true
        <-> map fst (calls_of evs) = stage_methods preserve_data
            /\ Forall (fun ret => ret.2 = true) (returns_of evs)).
Proof.
  destruct (execute_os_switch_run_shape iso_path target_partition preserve_data st)
    as (r & st' & mounted & evs & Hrun & Ht & Hev & Hshape).
  exists r, st', (evs ++ [Progress 0])%list.
  split; [exact Hrun|]. split; [exact Ht|].
  destruct preserve_data;
    [clear Hshape | destruct (Hshape eq_refl) as [rest Hrest]; clear Hshape];
    inversion Hev; subst; summarize;
    try match goal with
      | E : [Progress 0] = Progress 0 :: Progress 20 :: _ |- _ => discriminate E
      | E : Progress 0 :: ?b = Progress 0 :: Progress 20 :: _,
        P : progress_of ?b = [] |- _ =>
          exfalso; injection E as E; rewrite E, progress_of_cons in P; discriminate P
      end;
    summarize; read_trace;
    cbn [map fst app stage_methods];
    (split; [eexists; reflexivity|]);
    (split; [reflexivity|]);
    (split; [cbn; intuition congruence|]);
    (split; [first [discriminate | intros _; split; [reflexivity | repeat constructor]]
            | intros [Hcalls Hall]; first
                [ discriminate Hcalls
                | reflexivity
                | repeat match goal with
                    | H : Forall _ (_ :: _) |- _ => inversion H; subst; clear H
                    end;
                  discriminate ]]).
Qed.

(** ** Signatures and defaults of the image analysis *)

Section SignatureRules.
Context {engine : Regex}.




Lemma windows_version_lookup os mount_point tree key :
  key <> "installer" ->
  _extract_windows_version os mount_point tree !! key
  = (<["name" := "Windows"]> (<["version" := "Unknown"]> ∅) : gmap string string) !! key.
Proof.
  intros Hkey. unfold _extract_windows_version.
  generalize (os_walk os mount_point tree).
  generalize (<["name" := "Windows"]> (<["version" := "Unknown"]> ∅) : gmap string string).
  intros acc l. revert acc.
  induction l as [|[[root dirs] fs] l IH]; intros acc; simpl; [reflexivity|].
  rewrite IH. destruct (List.find _ fs); [|reflexivity].
  now rewrite lookup_insert_ne.
Qed.

(** X11. [_analyze_mounted_iso] never finds out the architecture: it is
    [Unknown] in every answer. For a tree taken for Windows or macOS the
    version is [Unknown] as well, and the name is the fixed [Windows] or
    [macOS]. *)
Theorem analysis_leaves_unknown (os : os_kind) (mount_point : string) (tree : list entry) :
  _analyze_mounted_iso os mount_point tree !! "architecture" = Some "Unknown"
  /\ (detected_type os mount_point tree = Some "windows" ->
      _analyze_mounted_iso os mount_point tree !! "version" = Some "Unknown"
      /\ _analyze_mounted_iso os mount_point tree !! "name" = Some "Windows")
  /\ (detected_type os mount_point tree = Some "macos" ->
      _analyze_mounted_iso os mount_point tree !! "version" = Some "Unknown"
      /\ _analyze_mounted_iso os mount_point tree !! "name" = Some "macOS").
Proof.
  unfold detected_type, _analyze_mounted_iso, os_signatures. cbn [analyze_loop].
  destruct (_matches_signatures os mount_point tree windows_signatures).
  { change (_extract_version_info os mount_point tree "windows")
      with (_extract_windows_version os mount_point tree).
    rewrite !lookup_union.
    rewrite !windows_version_lookup by discriminate.
    repeat split; try reflexivity; discriminate. }
  destruct (_matches_signatures os mount_point tree linux_signatures).
  { assert (Ha : _extract_linux_version tree !! "architecture" = None).
    { unfold _extract_linux_version.
      destruct (lookup_path _ tree) as [[name content|name children]|]; try reflexivity.
      destruct (re_search_quoted "NAME=" content), (re_search_quoted "VERSION=" content);
        repeat (rewrite lookup_insert_ne by discriminate); reflexivity. }
    assert (Ht : _extract_linux_version tree !! "type" = None)
      by apply linux_version_no_type.
    change (_extract_version_info os mount_point tree "linux")
      with (_extract_linux_version tree).
    rewrite !lookup_union, Ha, Ht.
    split; [reflexivity|]. split; discriminate. }
  destruct (_matches_signatures os mount_point tree macos_signatures).
  { change (_extract_version_info os mount_point tree "macos")
      with (_extract_macos_version os mount_point tree).
    unfold _extract_macos_version.
    destruct (lookup_path _ tree); rewrite !lookup_union;
      repeat split; try reflexivity; discriminate. }
  repeat split; try reflexivity; discriminate.
Qed.

End SignatureRules.


Lemma analysis_leaves_unknown_witness :
  _analyze_mounted_iso (engine := word_search) Posix "/mnt" mixed_tree !! "version"
  = Some "Unknown"
  /\ _analyze_mounted_iso (engine := word_search) Posix "/mnt" mixed_tree !! "name"
     = Some "Windows".
Proof.
  apply (analysis_leaves_unknown (engine := word_search) Posix "/mnt" mixed_tree).
  reflexivity.
Defined.

(** ** Looking into an image *)

Lemma detect_mount_point_nonempty st :
  String.eqb (detect_mount_point st) EmptyString = false.
Proof. unfold detect_mount_point. destruct (os_name (world st)); reflexivity. Qed.

Section LookingIntoAnImage.
Context {engine : Regex}.

(** X12. [extract_os_info] returns whenever its temporary directory
    could be made. When the mount tool then exits with a status other
    than 0 it answers with the error [Failed to mount ISO], runs no
    unmount and leaves the directory behind. When the mount succeeds it
    answers with the analysis of the mounted tree and runs the unmount
    tool once. Whatever the exit status of the unmount, the directory is
    then deleted with errors ignored: it is still there afterwards
    exactly when it resists, as it does after an unmount that failed.
    When the unmount tool cannot be started the directory is not deleted
    at all. *)
Theorem extract_os_info_outcomes (tree : list entry) (iso_path : string) (st : State) :
  io_at (world st) (tick (world st)) = None ->
  exists info st',
    extract_os_info tree iso_path st = (Val info, st')
    /\ (forall rc err,
           proc_at (world st) (S (tick (world st))) = Completed rc err -> rc <> 0 ->
           info = error_dict "Failed to mount ISO"
           /\ tick (world st') = S (S (tick (world st)))
           /\ detect_mount_point st ∈ paths (world st'))
    /\ (forall err,
           proc_at (world st) (S (tick (world st))) = Completed 0 err ->
           info = _analyze_mounted_iso (os_name (world st)) (detect_mount_point st) tree
           /\ tick (world st') = S (S (S (tick (world st))))
           /\ ((exists rc2 err2,
                   proc_at (world st) (S (S (tick (world st)))) = Completed rc2 err2)
               -> (detect_mount_point st ∈ paths (world st')
                   <-> detect_mount_point st
                       ∈ busy_at (world st) (S (S (S (tick (world st)))))))
           /\ ((exists msg, proc_at (world st) (S (S (tick (world st)))) = SpawnError msg)
               -> detect_mount_point st ∈ paths (world st'))).
Proof.
  intros Hio. pose proof (detect_mount_point_nonempty st) as Hne.
  unfold detect_mount_point in *.
  unfold extract_os_info, _mount_iso_temporarily, _unmount_iso_temporarily.
  unfold try_except, bind, mkdtemp, get, subprocess_run, rmtree, modify, ret. cbn.
  rewrite Hio. cbn.
  destruct (proc_at (world st) (S (tick (world st)))) as [rc err|msg]; cbn.
  - destruct (Z.eqb_spec rc 0) as [->|Hrc]; cbn.
    + rewrite Hne. cbn.
      destruct (proc_at (world st) (S (S (tick (world st))))) as [rc2 err2|msg2]; cbn;
        eexists _, _; (split; [reflexivity|]); (split; [intros rc' err' [= <- _]; congruence|]);
        intros err' _; (split; [reflexivity|]); (split; [reflexivity|]); split.
      * intros _. cbn. rewrite elem_of_filter, below_refl. split.
        -- intros [[Hb|Hb] _]; [discriminate | exact Hb].
        -- intros Hb. split; [now right | set_solver].
      * intros [msg [=]].
      * intros (rc2 & err2 & [=]).
      * intros _. cbn. set_solver.
    + eexists _, _. split; [reflexivity|]. split.
      * intros rc' err' _ _. split; [reflexivity|]. split; [reflexivity|]. cbn. set_solver.
      * intros err' [= -> _]. congruence.
  - eexists _, _. split; [reflexivity|]. split; [intros ? ? [=] | intros ? [=]].
Qed.

End LookingIntoAnImage.

Lemma extract_os_info_outcomes_witness :
  exists info st',
    extract_os_info (engine := word_search) mixed_tree "win.iso" (fresh_state Posix)
    = (Val info, st')
    /\ info !! "type" = Some "windows"
    /\ "/tmp/detorrent_os_detect_0" ∉ paths (world st').
Proof.
  destruct (extract_os_info_outcomes (engine := word_search) mixed_tree "win.iso"
              (fresh_state Posix) eq_refl)
    as (info & st' & Hrun & _ & Hok).
  destruct (Hok EmptyString eq_refl) as (Hinfo & _ & Hgone & _).
  exists info, st'. split; [exact Hrun|]. split.
  - rewrite Hinfo. reflexivity.
  - intros Hin. apply Hgone in Hin; [|now exists 0, EmptyString].
    cbn in Hin. set_solver.
Defined.

Section PreparingTheTarget.
Context {engine : Regex}.

Lemma extract_os_info_mount_fails tree iso_path st rc err :
  io_at (world st) (tick (world st)) = None ->
  proc_at (world st) (S (tick (world st))) = Completed rc err -> rc <> 0 ->
  exists st',
    extract_os_info tree iso_path st = (Val (error_dict "Failed to mount ISO"), st').
Proof.
  intros Hio Hproc Hrc.
  unfold extract_os_info, _mount_iso_temporarily.
  unfold try_except, bind, mkdtemp, get, subprocess_run, modify, ret. cbn.
  rewrite Hio. cbn. rewrite Hproc. cbn.
  destruct (Z.eqb_spec rc 0) as [->|_]; [congruence|]. cbn.
  eexists. reflexivity.
Qed.

(** X13. [prepare_target_os] does not touch the image when its validation
    fails: it hands the validation error on and nothing is mounted or run.
    When the validation passes it always reports success, even when the
    image cannot be mounted: the error [Failed to mount ISO] is then
    inside the [os_info] of a successful answer. *)
Theorem prepare_target_os_gate (disk : gmap string inode) (tree : list entry)
    (iso_path : string) (st : State) :
  (forall error,
      validate_iso_file disk iso_path = Invalid error ->
      prepare_target_os disk tree iso_path st = (Val (PrepareFailed error), st))
  /\ (forall size rc err,
         validate_iso_file disk iso_path = Valid size ->
         io_at (world st) (tick (world st)) = None ->
         proc_at (world st) (S (tick (world st))) = Completed rc err -> rc <> 0 ->
         exists st',
           prepare_target_os disk tree iso_path st
           = (Val (PreparedOk (error_dict "Failed to mount ISO")), st')).
Proof.
  unfold prepare_target_os. split.
  - intros error ->. reflexivity.
  - intros size rc err -> Hio Hproc Hrc.
    destruct (extract_os_info_mount_fails tree iso_path st rc err Hio Hproc Hrc)
      as (st' & Hrun).
    exists st'. unfold bind. now rewrite Hrun.
Qed.

End PreparingTheTarget.

Lemma prepare_target_os_gate_witness :
  exists st',
    prepare_target_os (engine := word_search) {[ "a.iso" := Regular blank_image ]} []
                      "a.iso" unmountable_state
    = (Val (PreparedOk (error_dict "Failed to mount ISO")), st').
Proof.
  refine (proj2 (prepare_target_os_gate (engine := word_search)
                   {[ "a.iso" := Regular blank_image ]} [] "a.iso" unmountable_state)
                1048576 32 "mount: wrong fs type" _ _ _ _).
  - vm_compute. reflexivity.
  - reflexivity.
  - reflexivity.
  - discriminate.
Defined.

(** ** Choosing the backup to restore *)

Lemma max_by_mtime_spec best files :
  In (max_by_mtime best files) (best :: files)
  /\ forall x, In x (best :: files) -> x.2 <= (max_by_mtime best files).2.
Proof.
  revert best. induction files as [|f rest IH]; intros best; simpl.
  - split; [now left|]. intros x [<-|[]]. lia.
  - destruct (Z.ltb_spec best.2 f.2) as [Hlt|Hge].
    + destruct (IH f) as [Hin Hmax]. split; [simpl in Hin; tauto|].
      intros x [<-|Hx]; [|now apply Hmax].
      specialize (Hmax f (or_introl eq_refl)). lia.
    + destruct (IH best) as [Hin Hmax]. split; [simpl in Hin; tauto|].
      intros x [<-|[<-|Hx]].
      * apply Hmax. now left.
      * specialize (Hmax best (or_introl eq_refl)). lia.
      * apply Hmax. now right.
Qed.

Lemma restore_unix_wrong_format backup_file st :
  endswith ".tar.gz" backup_file = false ->
  _restore_unix_backup backup_file st = (Val (Failure "Invalid backup file format"), st).
Proof. intros H. unfold _restore_unix_backup, try_except. now rewrite H. Qed.

(** [restore_system_backup], case by case. *)
Lemma restore_system_backup_cases entries backup_path st :
  restore_system_backup entries backup_path st
  = if bool_decide (backup_path ∈ paths (world st))
    then match _find_backup_files (os_name (world st)) entries backup_path with
         | [] => (Val (Failure "No backup files found"), st)
         | f :: rest =>
             try_except
               match os_name (world st) with
               | Nt => _restore_windows_backup (max_by_mtime f rest).1
               | Posix => _restore_unix_backup (max_by_mtime f rest).1
               end (fun e => ret (Failure e)) st
         end
    else (Val (Failure "Backup path does not exist"), st).
Proof.
  unfold restore_system_backup, try_except, bind, path_exists, get, ret. cbn.
  destruct (bool_decide (backup_path ∈ paths (world st))); cbn; [|reflexivity].
  destruct (_find_backup_files (os_name (world st)) entries backup_path); reflexivity.
Qed.

(** X14. [restore_system_backup] reports [Backup path does not exist] or
    [No backup files found] without doing anything when the directory is
    missing or holds no file named [.zip] or [.tar.gz]. Otherwise it
    restores the newest such file and no other: on a POSIX host, when the
    newest one is not a [.tar.gz], it reports [Invalid backup file
    format] and does nothing, older archives notwithstanding. *)
Theorem restore_system_backup_newest (entries : list (string * Z)) (backup_path : string)
    (st : State) :
  (backup_path ∉ paths (world st) ->
   restore_system_backup entries backup_path st
   = (Val (Failure "Backup path does not exist"), st))
  /\ (backup_path ∈ paths (world st) ->
      (forall e, In e entries -> is_backup_name e.1 = false) ->
      restore_system_backup entries backup_path st
      = (Val (Failure "No backup files found"), st))
  /\ (backup_path ∈ paths (world st) ->
      forall f rest,
        _find_backup_files (os_name (world st)) entries backup_path = f :: rest ->
        let latest := max_by_mtime f rest in
        In latest (f :: rest)
        /\ (forall x, In x (f :: rest) -> x.2 <= latest.2)
        /\ (os_name (world st) = Posix ->
            restore_system_backup entries backup_path st = _restore_unix_backup latest.1 st)
        /\ (os_name (world st) = Posix -> endswith ".tar.gz" latest.1 = false ->
            restore_system_backup entries backup_path st
            = (Val (Failure "Invalid backup file format"), st))).
Proof.
  rewrite restore_system_backup_cases. split; [|split].
  - intros Hno. destruct (bool_decide (backup_path ∈ paths (world st))) eqn:Hd;
      [apply bool_decide_eq_true in Hd; contradiction | reflexivity].
  - intros Hyes Hnone. destruct (bool_decide (backup_path ∈ paths (world st))) eqn:Hd;
      [|apply bool_decide_eq_false in Hd; contradiction].
    assert (Hfilter : List.filter (fun e : string * Z => is_backup_name e.1) entries = []).
    { induction entries as [|e es IH]; [reflexivity|]. simpl.
      rewrite (Hnone e (or_introl eq_refl)). apply IH. intros e' He'. apply Hnone. now right. }
    unfold _find_backup_files. rewrite Hfilter. reflexivity.
  - intros Hyes f rest Hfiles latest.
    destruct (bool_decide (backup_path ∈ paths (world st))) eqn:Hd;
      [|apply bool_decide_eq_false in Hd; contradiction].
    destruct (max_by_mtime_spec f rest) as [Hin Hmax].
    split; [exact Hin|]. split; [exact Hmax|]. rewrite Hfiles. fold latest.
    assert (Hrun : os_name (world st) = Posix ->
                   try_except
                     match os_name (world st) with
                     | Nt => _restore_windows_backup latest.1
                     | Posix => _restore_unix_backup latest.1
                     end (fun e => ret (Failure e)) st
                   = _restore_unix_backup latest.1 st).
    { intros ->. unfold try_except at 1.
      destruct (try_except_returns
                  (if negb (endswith ".tar.gz" latest.1)
                   then ret (Failure "Invalid backup file format")
                   else
                     let* temp_extract_dir := mkdtemp "detorrent_restore_" in
                     let* _ := library_io in
                     run_each (fun c => Argv (String.words c)) (fun rc => negb (rc =? 0))
                       (fun stderr => Failure ("Restore command failed: " +:+ stderr))
                       (unix_restore_commands temp_extract_dir)
                       (let* _ := rmtree temp_extract_dir in
                        ret (Success [("message", "Unix backup restored successfully")]))) st)
        as (r & st' & Hr).
      change (_restore_unix_backup latest.1 st = (Val r, st')) in Hr.
      now rewrite Hr. }
    split; [exact Hrun|].
    intros Hos Hfmt. rewrite (Hrun Hos). now apply restore_unix_wrong_format.
Qed.

Lemma restore_system_backup_newest_witness :
  restore_system_backup mixed_backups "/backups" state_with_backup_dir
  = (Val (Failure "Invalid backup file format"), state_with_backup_dir).
Proof.
  destruct (restore_system_backup_newest mixed_backups "/backups" state_with_backup_dir)
    as (_ & _ & Hnewest).
  eapply Hnewest.
  - apply (bool_decide_unpack _). vm_compute. reflexivity.
  - reflexivity.
  - reflexivity.
  - vm_compute. reflexivity.
Defined.

(** ** Backups that were started *)

Lemma settled_new_object b id info status :
  settled b -> bi_id info = id ->
  status = "completed" \/ status = "failed" ->
  settled
    (set_objects (<[length (objects b) := mkBackupInfo (bi_id info) (bi_path info)
                                            (bi_timestamp info) status]>
                    (objects b ++ [info])%list)
       (set_active_backups (<[id := length (objects b)]> (active_backups b)) b)).
Proof.
  intros Hok Hid Hstatus id' ref Hl. simpl in Hl. simpl.
  destruct (decide (id = id')) as [<-|Hne].
  - rewrite lookup_insert_eq in Hl. injection Hl as <-. eexists. split.
    + apply list_lookup_insert_eq. rewrite length_app. simpl. lia.
    + split; [exact Hid | exact Hstatus].
  - rewrite lookup_insert_ne in Hl by exact Hne.
    destruct (Hok id' ref Hl) as (i & Hi & Hid' & Hs). exists i. split; [|auto].
    pose proof (lookup_lt_Some _ _ _ Hi) as Hlt.
    rewrite list_lookup_insert_ne by lia. now rewrite lookup_app_l.
Qed.

Lemma create_system_backup_settled backup_path st :
  settled (backup_manager st) ->
  exists r st',
    create_system_backup backup_path st = (Val r, st')
    /\ settled (backup_manager st').
Proof.
  intros Hok.
  unfold create_system_backup, traced, _generate_backup_id, set_status, log.
  unfold try_except, bind, modify, get, ret, path_exists, now, new_object, makedirs.
  cbn.
  destruct (bool_decide (backup_path ∈ paths (world st))); cbn.
  - match goal with
    | |- context [match os_name ?w with Nt => ?a | Posix => ?b end ?s] =>
        assert (Hrun : exists r s', (match os_name w with Nt => a | Posix => b end) s = (Val r, s')
                                    /\ backup_manager s' = backup_manager s);
        [ destruct (os_name w);
          [apply create_windows_backup_frame | apply create_unix_backup_frame] |]
    end.
    destruct Hrun as (r & s' & Hrun & Hbm). rewrite Hrun. destruct r as [fields|error]; cbn;
      eexists _, _; (split; [reflexivity|]); cbn; rewrite Hbm; cbn;
      rewrite list_lookup_middle by reflexivity; cbn.
    + intros id ref Hl. revert id ref Hl.
      apply (settled_new_object (backup_manager st) _
               (mkBackupInfo _ backup_path _ "in_progress") "completed" Hok);
        [reflexivity | now left].
    + apply (settled_new_object (backup_manager st) _
               (mkBackupInfo _ backup_path _ "in_progress") "failed" Hok);
        [reflexivity | now right].
  - destruct (io_at (world st) (tick (world st))); cbn.
    { eexists _, _. split; [reflexivity | exact Hok]. }
    match goal with
    | |- context [match os_name ?w with Nt => ?a | Posix => ?b end ?s] =>
        assert (Hrun : exists r s', (match os_name w with Nt => a | Posix => b end) s = (Val r, s')
                                    /\ backup_manager s' = backup_manager s);
        [ destruct (os_name w);
          [apply create_windows_backup_frame | apply create_unix_backup_frame] |]
    end.
    destruct Hrun as (r & s' & Hrun & Hbm). rewrite Hrun. destruct r as [fields|error]; cbn;
      eexists _, _; (split; [reflexivity|]); cbn; rewrite Hbm; cbn;
      rewrite list_lookup_middle by reflexivity; cbn.
    + intros id ref Hl. revert id ref Hl.
      apply (settled_new_object (backup_manager st) _
               (mkBackupInfo _ backup_path _ "in_progress") "completed" Hok);
        [reflexivity | now left].
    + apply (settled_new_object (backup_manager st) _
               (mkBackupInfo _ backup_path _ "in_progress") "failed" Hok);
        [reflexivity | now right].
Qed.

(** X15. No backup is left in progress: after any sequence of
    [create_system_backup] calls on a manager that started with no
    backups, every id in [active_backups] refers to a dictionary that
    carries that id and says [completed] or [failed]. *)
Theorem backups_never_left_in_progress (backup_paths : list string) (st : State) :
  active_backups (backup_manager st) = ∅ ->
  exists rs st',
    run_backups backup_paths st = (Val rs, st')
    /\ settled (backup_manager st').
Proof.
  intros Hempty.
  assert (Hok : settled (backup_manager st)).
  { intros id ref Hl. rewrite Hempty, lookup_empty in Hl. discriminate. }
  clear Hempty. revert st Hok.
  induction backup_paths as [|p ps IH]; intros st Hok.
  - exists [], st. split; [reflexivity | exact Hok].
  - destruct (create_system_backup_settled p st Hok) as (r & s1 & Hrun & Hok1).
    destruct (IH s1 Hok1) as (rs & st' & Hruns & Hok').
    exists (r :: rs), st'. split; [|exact Hok'].
    simpl. unfold bind. now rewrite Hrun, Hruns.
Qed.

Lemma backups_never_left_in_progress_witness :
  exists rs st',
    run_backups ["/backups/a"; "/backups/b"] state_second_backup_fails = (Val rs, st')
    /\ settled (backup_manager st').
Proof.
  apply (backups_never_left_in_progress ["/backups/a"; "/backups/b"]
           state_second_backup_fails).
  reflexivity.
Defined.

